(** * Simple Apple Health XML to CSV: a verification development

    A shallow embedding of [apple_health_xml_convert.py] and the
    properties of its four stages: the text preprocessor, the streaming
    record extractor, the table normaliser and the biometrics filter.

    Text is modelled as [string], the sequence of bytes of its UTF-8
    encoding; substring search, replacement and lexicographic comparison
    on the bytes agree with Python's on code points. *)

From Stdlib Require Import String Ascii List Arith NArith Lia Bool Permutation.
From stdpp Require Import base decidable option list strings gmap sorting.
Import ListNotations.

Local Open Scope string_scope.
Local Open Scope list_scope.

(** ** Python string primitives *)

Module PyStr.

(** [s.startswith(p)] *)
Fixpoint startswith (p s : string) : bool :=
  match p, s with
  | EmptyString, _ => true
  | String _ _, EmptyString => false
  | String a p', String b s' => Ascii.eqb a b && startswith p' s'
  end.

(** [sub in s] *)
Fixpoint contains (sub s : string) : bool :=
  startswith sub s ||
  match s with
  | EmptyString => false
  | String _ s' => contains sub s'
  end.

(** [s.replace(old, new)]: every leftmost, non-overlapping occurrence of
    [old] is replaced; [skip] counts the characters of a matched
    occurrence still to be jumped over.  An empty [old] matches before
    every character and at the end, as in Python. *)
Fixpoint replace_from (old new : string) (skip : nat) (s : string) : string :=
  match s with
  | EmptyString =>
      match skip, old with
      | O, EmptyString => new
      | _, _ => EmptyString
      end
  | String c s' =>
      match skip with
      | S k => replace_from old new k s'
      | O =>
          if startswith old s then
            String.append new
              (match String.length old with
               | O => String c (replace_from old new 0 s')
               | S k => replace_from old new k s'
               end)
          else String c (replace_from old new 0 s')
      end
  end.

Definition replace (old new s : string) : string := replace_from old new 0 s.

(** The characters of [s] that satisfy [keep], in order. *)
Fixpoint filter_chars (keep : ascii -> bool) (s : string) : string :=
  match s with
  | EmptyString => EmptyString
  | String c s' =>
      if keep c then String c (filter_chars keep s') else filter_chars keep s'
  end.

(** [occurs c s]: the character [c] occurs in [s]. *)
Fixpoint occurs (c : ascii) (s : string) : bool :=
  match s with
  | EmptyString => false
  | String d s' => Ascii.eqb c d || occurs c s'
  end.

Definition LF : ascii := "010"%char.
Definition CR : ascii := "013"%char.

(** Iterating a text file opened for reading with [newline] left at
    [None]: the lines of [s], each with its line end.  A carriage return,
    alone or followed by a line feed, ends a line as a line feed does, and
    the line is handed over with a line feed at its end. *)
Fixpoint readlines (s : string) : list string :=
  match s with
  | EmptyString => []
  | String c s' =>
      if Ascii.eqb c LF then String LF EmptyString :: readlines s'
      else if Ascii.eqb c CR then
        String LF EmptyString ::
        match s' with
        | EmptyString => []
        | String d s'' => if Ascii.eqb d LF then readlines s'' else readlines s'
        end
      else match readlines s' with
           | [] => [String c EmptyString]
           | l :: ls => String c l :: ls
           end
  end.

(** *** Decoding

    [between lo hi c]: the byte [c] lies in [lo..hi]. *)
Definition between (lo hi : N) (c : ascii) : bool :=
  (lo <=? N_of_ascii c)%N && (N_of_ascii c <=? hi)%N.

(** A continuation byte, [80..BF]. *)
Definition continuation (c : ascii) : bool := between 128 191 c.

(** The first two bytes of a three-byte sequence: no overlong form
    ([E0] needs [A0..BF]) and no surrogate ([ED] needs [80..9F]). *)
Definition lead3 (a b : ascii) : bool :=
  between 224 224 a && between 160 191 b ||
  between 225 236 a && continuation b ||
  between 237 237 a && between 128 159 b ||
  between 238 239 a && continuation b.

(** The first two bytes of a four-byte sequence: no overlong form
    ([F0] needs [90..BF]) and nothing above U+10FFFF ([F4] needs
    [80..8F]). *)
Definition lead4 (a b : ascii) : bool :=
  between 240 240 a && between 144 191 b ||
  between 241 243 a && continuation b ||
  between 244 244 a && between 128 143 b.

(** The bytes [s] are well-formed UTF-8: what the decoder of a file
    opened with [encoding='UTF-8'] accepts; on any other bytes it raises
    [UnicodeDecodeError]. *)
Fixpoint utf8_valid (s : string) : bool :=
  match s with
  | EmptyString => true
  | String a s1 =>
      if between 0 127 a then utf8_valid s1
      else
        match s1 with
        | EmptyString => false
        | String b s2 =>
            if between 194 223 a then continuation b && utf8_valid s2
            else
              match s2 with
              | EmptyString => false
              | String c s3 =>
                  if lead3 a b then continuation c && utf8_valid s3
                  else
                    match s3 with
                    | EmptyString => false
                    | String d s4 =>
                        lead4 a b && continuation c && continuation d &&
                        utf8_valid s4
                    end
              end
        end
  end.

End PyStr.

(** ** Text preprocessor *)

Module Preprocess.
Import PyStr.

Definition DOCTYPE : string := "<!DOCTYPE".
Definition DTD_END : string := "]>".

(** The invisible character U+000B. *)
Definition VT : ascii := "011"%char.

(** [strip_invisible_character(line)] *)
Definition strip_invisible_character (line : string) : string :=
  replace (String VT EmptyString) EmptyString line.

(** The loop state of [preprocess_to_temp_file]: the flag and what has been
    written to the temporary file so far. *)
Record state := State { skip_dtd : bool; outfile : list string }.

(** One iteration of [for line in infile]. *)
Definition step (st : state) (line : string) : state :=
  let skip1 := if contains DOCTYPE line then true else skip_dtd st in
  let line1 := if skip1 then line else strip_invisible_character line in
  let out1 := if skip1 then outfile st else outfile st ++ [line1] in
  let skip2 := if contains DTD_END line1 then false else skip1 in
  State skip2 out1.

Definition run (st : state) (infile : list string) : state :=
  fold_left step infile st.

(** The lines written for the lines read. *)
Definition preprocess_lines (infile : list string) : list string :=
  outfile (run (State false []) infile).

(** What [preprocess_to_temp_file] writes to the temporary file for the
    content of the input file. *)
Definition preprocess_text (content : string) : string :=
  String.concat EmptyString (preprocess_lines (readlines content)).

End Preprocess.

(** ** Python values shared by the stages *)

(** A [dict] with string keys and values; Python dicts keep insertion
    order, which the extractor and the table constructor both observe. *)
Definition dict := list (string * string).

Module Dict.

Definition keys (d : dict) : list string := map fst d.
Definition values (d : dict) : list string := map snd d.

(** [d.get(k)] *)
Fixpoint get (k : string) (d : dict) : option string :=
  match d with
  | [] => None
  | (k', v) :: d' => if String.eqb k k' then Some v else get k d'
  end.

(** [d[k] = v]: an existing key keeps its position. *)
Fixpoint set (k v : string) (d : dict) : dict :=
  match d with
  | [] => [(k, v)]
  | (k', v') :: d' =>
      if String.eqb k k' then (k, v) :: d' else (k', v') :: set k v d'
  end.

(** [d.update(other)] *)
Definition update (d other : dict) : dict :=
  fold_left (fun acc kv => set (fst kv) (snd kv) acc) other d.

End Dict.

(** The exceptions the program can end with. *)
Inductive error : Type :=
  | FileNotFoundError
  | UnicodeDecodeError
  | ParseError
  | AttributeError
  | ValueError
  | KeyError.

Inductive result (A : Type) : Type :=
  | Ok (a : A)
  | Raise (e : error).
Arguments Ok {A} a.
Arguments Raise {A} e.

#[export] Instance result_ret : MRet result := fun A a => Ok a.

#[export] Instance result_bind : MBind result := fun A B f m =>
  match m with
  | Ok a => f a
  | Raise e => Raise e
  end.

(** ** Streaming record extractor *)

Module Extract.

(** A parsed XML document: tag, attributes in declaration order, child
    elements in document order. *)
#[warnings="-register-all"] Inductive xml : Type :=
  | Node (tag : string) (attrs : dict) (kids : list xml).

Definition xml_attrs (x : xml) : dict := let 'Node _ a _ := x in a.
Definition xml_kids (x : xml) : list xml := let 'Node _ _ k := x in k.

(** An [Element] object.  Elements are shared and mutable: a parent's
    child list refers to the very objects that [iterparse] has already
    handed to the loop, so they live in a store and are named by an
    identifier. *)
Record Element := mkElement {
  tag : string;
  attrib : dict;
  children : list nat
}.

Record parser := mkParser {
  next_id : nat;
  elems : gmap nat Element;
  events : list nat
}.

(** [ET.iterparse(file, events=('end',))]: elements are created at their
    start tag, appended to their parent, and reported at their end tag, so
    every child is reported before its parent. *)
Fixpoint parse_node (x : xml) (p : parser) : nat * parser :=
  match x with
  | Node t a ks =>
      let id := next_id p in
      let '(ids, p1) :=
        (fix parse_kids (ks : list xml) (p : parser) : list nat * parser :=
           match ks with
           | [] => ([], p)
           | k :: ks' =>
               let '(i, p') := parse_node k p in
               let '(rest_ids, p'') := parse_kids ks' p' in
               (i :: rest_ids, p'')
           end) ks (mkParser (S id) (elems p) (events p)) in
      (id, mkParser (next_id p1)
                    (<[id := mkElement t a ids]> (elems p1))
                    (events p1 ++ [id]))
  end.

Definition iterparse (doc : xml) : parser :=
  snd (parse_node doc (mkParser 0 ∅ [])).

(** The state of the loop in [xml_to_csv]: the element objects and the
    list of records collected so far. *)
Record loop_state := mkLoop {
  store : gmap nat Element;
  attribute_list : list dict
}.

Definition attrib_of (s : gmap nat Element) (id : nat) : dict :=
  match s !! id with Some e => attrib e | None => [] end.

Definition children_of (s : gmap nat Element) (id : nat) : list nat :=
  match s !! id with Some e => children e | None => [] end.

(** The inner loop: [for metadata_entry in list(elem)] *)
Definition merge_metadata (s : gmap nat Element) (child_attrib : dict)
    (metadata_entry : nat) : dict :=
  let metadata_values := Dict.values (attrib_of s metadata_entry) in
  match metadata_values with
  | [v0; v1] => Dict.update child_attrib [(v0, v1)]
  | _ => child_attrib
  end.

(** [elem.clear()]: the element lets go of its attribute dict and of its
    children.  The dict appended to [attribute_list] just before is that
    same object and keeps its entries; the element, still a child of its
    parent, is left with no attributes. *)
Definition clear (e : Element) : Element := mkElement (tag e) [] [].

(** The body of [for event, elem in ET.iterparse(...)] at an end event. *)
Definition on_end (st : loop_state) (elem : nat) : loop_state :=
  let child_attrib := attrib_of (store st) elem in
  let child_attrib :=
    fold_left (merge_metadata (store st)) (children_of (store st) elem)
              child_attrib in
  mkLoop (alter clear elem (store st)) (attribute_list st ++ [child_attrib]).

(** The records collected by [xml_to_csv] from a parsed document.  The
    program takes the events while the parser is still reading; the parser
    changes no element after its end tag, so the loop can be run on the
    elements as the parser leaves them. *)
Definition extract (doc : xml) : list dict :=
  let p := iterparse doc in
  attribute_list (fold_left on_end (events p) (mkLoop (elems p) [])).

(** *** The extraction the specification describes *)

(** The record of one element as the specification words it: its own
    attributes, then one entry per direct child with exactly two
    attributes. *)
Definition spec_record (x : xml) : dict :=
  fold_left
    (fun d k =>
       match Dict.values (xml_attrs k) with
       | [v0; v1] => Dict.set v0 v1 d
       | _ => d
       end)
    (xml_kids x) (xml_attrs x).

(** The elements of a document in the order of their end tags. *)
Fixpoint postorder (x : xml) : list xml :=
  match x with
  | Node _ _ ks => flat_map postorder ks ++ [x]
  end.

Definition spec_extract (doc : xml) : list dict :=
  map spec_record (postorder doc).

End Extract.

(** ** The pandas operations the program calls *)

Module Pandas.
Import PyStr.

(** A cell of a table: a string, or [None] for a missing value (NaN). *)
Definition cell := option string.

(** A [DataFrame]: column labels and rows, every row holding one cell per
    label in the order of the labels. *)
Record DataFrame := mkDataFrame {
  columns : list string;
  rows : list (list cell)
}.

Definition add_key (cols : list string) (k : string) : list string :=
  if bool_decide (k ∈ cols) then cols else cols ++ [k].

(** The labels of [pd.DataFrame(records)]: every key, in the order of its
    first appearance. *)
Definition union_keys (records : list dict) : list string :=
  fold_left (fun cols r => fold_left add_key (Dict.keys r) cols) records [].

(** [pd.DataFrame(records)] *)
Definition from_records (records : list dict) : DataFrame :=
  let cols := union_keys records in
  mkDataFrame cols (map (fun r => map (fun c => Dict.get c r) cols) records).

(** The position of a label. *)
Fixpoint index_of (c : string) (cols : list string) : option nat :=
  match cols with
  | [] => None
  | c' :: cs => if String.eqb c c' then Some 0 else S <$> index_of c cs
  end.

Definition cell_at (row : list cell) (i : nat) : cell :=
  match row !! i with Some x => x | None => None end.

(** The cell of [row] under label [c] in a table with labels [cols]. *)
Definition cell_of (cols : list string) (c : string) (row : list cell) : cell :=
  match index_of c cols with Some i => cell_at row i | None => None end.

(** [df[c]] *)
Definition column (df : DataFrame) (c : string) : result (list cell) :=
  match index_of c (columns df) with
  | Some i => Ok (map (fun r => cell_at r i) (rows df))
  | None => Raise KeyError
  end.

(** [df.c = df.c.str.replace(old, new)]; the attribute access fails when
    no column is labelled [c]; missing values stay missing. *)
Definition str_replace_attr (c old new : string) (df : DataFrame)
    : result DataFrame :=
  match index_of c (columns df) with
  | Some i =>
      Ok (mkDataFrame (columns df)
            (map (alter (fmap (replace old new)) i) (rows df)))
  | None => Raise AttributeError
  end.

(** [df.columns = df.columns.str.replace(old, new)] *)
Definition rename_columns (old new : string) (df : DataFrame) : DataFrame :=
  mkDataFrame (map (replace old new) (columns df)) (rows df).

(** [df.reindex(labels=labels, axis='columns')]: a label the table lacks
    gives a column of missing values; a table with a repeated label cannot
    be reindexed. *)
Definition reindex (labels : list string) (df : DataFrame) : result DataFrame :=
  if bool_decide (NoDup (columns df)) then
    Ok (mkDataFrame labels
          (map (fun r => map (fun c => cell_of (columns df) c r) labels)
               (rows df)))
  else Raise ValueError.

(** [df.take(indexer)] on rows. *)
Definition take (indexer : list nat) (df : DataFrame) : DataFrame :=
  mkDataFrame (columns df)
    (map (fun i => default [] (rows df !! i)) indexer).

Definition str_le (x y : string) : Prop := String.leb x y = true.

(** numpy's [argsort] of an array of strings with the sort kind left at
    its default, quicksort: the indices in ascending order of the
    strings.  Nothing more is promised; in particular the order among
    equal strings is the algorithm's own. *)
Record ArgSort := mkArgSort {
  argsort : list string -> list nat;
  argsort_perm : forall l, argsort l ≡ₚ seq 0 (length l);
  argsort_sorted :
    forall l, Sorted str_le (map (fun i => default EmptyString (l !! i)) (argsort l))
}.

(** pandas' [nargsort(items, ascending=False, na_position='last')]. *)
Definition nargsort_desc (qs : ArgSort) (items : list cell) : list nat :=
  let idx := seq 0 (length items) in
  let non_nan_idx := filter (fun i => is_Some (cell_at items i)) idx in
  let nan_idx := filter (fun i => cell_at items i = None) idx in
  let non_nans := omap id items in
  let indexer :=
    map (fun j => default 0 (reverse non_nan_idx !! j))
        (argsort qs (reverse non_nans)) in
  reverse indexer ++ nan_idx.

(** [df.sort_values(by=c, ascending=False)] with one label. *)
Definition sort_values_desc (qs : ArgSort) (c : string) (df : DataFrame)
    : result DataFrame :=
  items ← column df c;
  Ok (take (nargsort_desc qs items) df).

(** Order of two cells of a sort key, missing values last. *)
Definition cell_leb (ascending : bool) (a b : cell) : bool :=
  match a, b with
  | Some x, Some y => if ascending then String.leb x y else String.leb y x
  | _, None => true
  | None, Some _ => false
  end.

(** Lexicographic order of two key vectors under the given directions. *)
Fixpoint keys_leb (ascending : list bool) (k1 k2 : list cell) : bool :=
  match ascending, k1, k2 with
  | a :: asc, x :: k1', y :: k2' =>
      if bool_decide (x = y) then keys_leb asc k1' k2' else cell_leb a x y
  | _, _, _ => true
  end.

Fixpoint insert_sorted {A} (leb : A -> A -> bool) (x : A) (l : list A) : list A :=
  match l with
  | [] => [x]
  | y :: l' => if leb x y then x :: l else y :: insert_sorted leb x l'
  end.

(** A stable sort: what [np.lexsort] computes for the key codes. *)
Definition stable_sort {A} (leb : A -> A -> bool) (l : list A) : list A :=
  foldr (insert_sorted leb) [] l.

Fixpoint index_all (by_ : list string) (cols : list string) : result (list nat) :=
  match by_ with
  | [] => Ok []
  | c :: cs =>
      match index_of c cols with
      | Some i => rest ← index_all cs cols; Ok (i :: rest)
      | None => Raise KeyError
      end
  end.

(** [df.sort_values(by=[...], ascending=[...])] with several labels. *)
Definition sort_values_multi (by_ : list string) (ascending : list bool)
    (df : DataFrame) : result DataFrame :=
  idx ← index_all by_ (columns df);
  let key r := map (cell_at r) idx in
  Ok (mkDataFrame (columns df)
        (stable_sort (fun r1 r2 => keys_leb ascending (key r1) (key r2))
                     (rows df))).

(** [s.unique()]: the distinct values in the order of first appearance. *)
Fixpoint unique (l : list cell) : list cell :=
  match l with
  | [] => []
  | x :: l' => x :: filter (fun y => y ≠ x) (unique l')
  end.

(** [a[mask]] *)
Fixpoint select {A} (mask : list bool) (l : list A) : list A :=
  match mask, l with
  | b :: mask', x :: l' => if b then x :: select mask' l' else select mask' l'
  | _, _ => []
  end.

(** [s == v] *)
Definition eq_scalar (col : list cell) (v : string) : list bool :=
  map (fun c => bool_decide (c = Some v)) col.

(** [s.isin(values)] *)
Definition isin (col : list cell) (values : list cell) : list bool :=
  map (fun c => bool_decide (c ∈ values)) col.

(** [df[mask]] *)
Definition select_rows (mask : list bool) (df : DataFrame) : DataFrame :=
  mkDataFrame (columns df) (select mask (rows df)).

(** *** Writing a table *)

Definition DQUOTE : ascii := "034"%char.
Definition NEWLINE : ascii := "010"%char.

(** The [csv] writer's minimal quoting: a field holding the delimiter,
    the quote character or the line terminator is quoted, its quote
    characters doubled. *)
Definition needs_quote (f : string) : bool :=
  occurs ","%char f || occurs DQUOTE f || occurs NEWLINE f.

Definition quote_field (f : string) : string :=
  if needs_quote f then
    String DQUOTE
      (String.append
         (replace (String DQUOTE EmptyString)
                  (String DQUOTE (String DQUOTE EmptyString)) f)
         (String DQUOTE EmptyString))
  else f.

Definition csv_row (fields : list string) : string :=
  String.append
    (match fields with
     | [EmptyString] => String DQUOTE (String DQUOTE EmptyString)
     | _ => String.concat "," (map quote_field fields)
     end)
    (String NEWLINE EmptyString).

(** [df.to_csv(path, index=False)]: the content written. *)
Definition to_csv (df : DataFrame) : string :=
  String.concat EmptyString
    (csv_row (columns df)
     :: map (fun r => csv_row (map (default EmptyString) r)) (rows df)).

End Pandas.

(** ** numpy's indirect sort

    [sort_values] leaves the sort kind at its default, and for the one
    key of the program pandas hands the strings of the column to numpy's
    [argsort(kind='quicksort')].  For an array of Python objects that is
    [npy_aquicksort]: an introsort on the index array [tosort], comparing
    the strings [v] it points into; a quicksort on the median of three
    while the ends of a range are more than [SMALL_QUICKSORT] apart, an
    insertion sort on what is left, a heap sort on a range whose depth
    has run out.  Pointers are positions in [tosort]. *)

Module Numpy.

Section Indirect.
Variable v : list string.

(** [v[*p]] *)
Definition deref (tosort : list nat) (p : nat) : string :=
  default EmptyString (v !! default 0 (tosort !! p)).

(** [cmp(x, y) < 0] *)
Definition less (x y : string) : bool := String.ltb x y.

(** [INTP_SWAP]: the entries at [p] and [q] change places. *)
Definition swap (tosort : list nat) (p q : nat) : list nat :=
  match tosort !! p, tosort !! q with
  | Some x, Some y => <[q := x]> (<[p := y]> tosort)
  | _, _ => tosort
  end.

(** [do { ++pi; } while (cmp(v[*pi], vp) < 0 && pi < pj);] *)
Fixpoint scan_up (vp : string) (tosort : list nat) (pj : nat)
    (fuel pi : nat) : nat :=
  match fuel with
  | O => S pi
  | S fuel' =>
      if less (deref tosort (S pi)) vp && Nat.ltb (S pi) pj
      then scan_up vp tosort pj fuel' (S pi)
      else S pi
  end.

(** [do { --pj; } while (cmp(vp, v[*pj]) < 0 && pi < pj);] *)
Fixpoint scan_down (vp : string) (tosort : list nat) (pi pj : nat) : nat :=
  match pj with
  | O => O
  | S pj' =>
      if less vp (deref tosort pj') && Nat.ltb pi pj'
      then scan_down vp tosort pi pj'
      else pj'
  end.

(** The [for (;;)] of the partition: scan, stop when the pointers meet,
    else swap and go on. *)
Fixpoint exchange (vp : string) (fuel : nat) (tosort : list nat)
    (pi pj : nat) : list nat * nat :=
  let pi := scan_up vp tosort pj pj pi in
  let pj := scan_down vp tosort pi pj in
  if Nat.leb pj pi then (tosort, pi)
  else
    match fuel with
    | O => (tosort, pi)
    | S fuel' => exchange vp fuel' (swap tosort pi pj) pi pj
    end.

(** One partition of [pl..pr] around the median of three; returns where
    the pivot ends up. *)
Definition partition (tosort : list nat) (pl pr : nat) : list nat * nat :=
  let pm := pl + Nat.div2 (pr - pl) in
  let tosort :=
    if less (deref tosort pm) (deref tosort pl) then swap tosort pm pl
    else tosort in
  let tosort :=
    if less (deref tosort pr) (deref tosort pm) then swap tosort pr pm
    else tosort in
  let tosort :=
    if less (deref tosort pm) (deref tosort pl) then swap tosort pm pl
    else tosort in
  let vp := deref tosort pm in
  let pi := pl in
  let pj := pr - 1 in
  let tosort := swap tosort pm pj in
  let '(tosort, pi) := exchange vp (pr - pl) tosort pi pj in
  let pk := pr - 1 in
  (swap tosort pi pk, pi).

(** [while (pj > pl && cmp(vp, v[*pk]) < 0) { *pj-- = *pk--; }] *)
Fixpoint shift (vp : string) (pl : nat) (tosort : list nat) (pj : nat)
    : list nat * nat :=
  match pj with
  | O => (tosort, O)
  | S pk =>
      if Nat.ltb pl (S pk) && less vp (deref tosort pk)
      then shift vp pl (<[S pk := default 0 (tosort !! pk)]> tosort) pk
      else (tosort, S pk)
  end.

(** One round of the insertion sort: [*pi] is put in its place among
    [pl..pi-1]. *)
Definition insert (pl : nat) (tosort : list nat) (pi : nat) : list nat :=
  let vi := default 0 (tosort !! pi) in
  let vp := default EmptyString (v !! vi) in
  let '(tosort, pj) := shift vp pl tosort pi in
  <[pj := vi]> tosort.

(** [for (pi = pl + 1; pi <= pr; ++pi)] *)
Definition insertion_sort (tosort : list nat) (pl pr : nat) : list nat :=
  fold_left (insert pl) (seq (S pl) (pr - pl)) tosort.

(** *** The heap sort taken when the depth runs out

    [a = tosort - 1]: the heap is indexed from one, [base] is where
    [tosort] starts. *)
Definition heap_get (tosort : list nat) (base k : nat) : nat :=
  default 0 (tosort !! (base + k - 1)).
Definition heap_set (tosort : list nat) (base k x : nat) : list nat :=
  <[base + k - 1 := x]> tosort.

(** [for (...; j <= n;) { ... } a[i] = tmp;] *)
Fixpoint sift (fuel : nat) (base n tmp : nat) (tosort : list nat)
    (i j : nat) : list nat :=
  match fuel with
  | O => heap_set tosort base i tmp
  | S fuel' =>
      if Nat.leb j n then
        let j :=
          if Nat.ltb j n &&
             less (default EmptyString (v !! heap_get tosort base j))
                  (default EmptyString (v !! heap_get tosort base (j + 1)))
          then j + 1 else j in
        if less (default EmptyString (v !! tmp))
                (default EmptyString (v !! heap_get tosort base j))
        then sift fuel' base n tmp
               (heap_set tosort base i (heap_get tosort base j)) j (j + j)
        else heap_set tosort base i tmp
      else heap_set tosort base i tmp
  end.

(** [for (l = n >> 1; l > 0; --l)] *)
Definition heapify (tosort : list nat) (base n : nat) : list nat :=
  fold_left
    (fun tosort l => sift n base n (heap_get tosort base l) tosort l (l + l))
    (reverse (seq 1 (Nat.div2 n))) tosort.

(** [for (; n > 1;)] *)
Fixpoint drain (fuel : nat) (tosort : list nat) (base n : nat) : list nat :=
  match fuel with
  | O => tosort
  | S fuel' =>
      if Nat.ltb 1 n then
        let tmp := heap_get tosort base n in
        let tosort := heap_set tosort base n (heap_get tosort base 1) in
        let n := n - 1 in
        drain fuel' (sift n base n tmp tosort 1 2) base n
      else tosort
  end.

Definition aheapsort (tosort : list nat) (base n : nat) : list nat :=
  drain n (heapify tosort base n) base n.

(** *** The introsort *)

Definition SMALL_QUICKSORT : nat := 16.

(** A range waiting on the stack, with the depth left for it. *)
Definition frame : Type := nat * nat * Z.

(** [while ((pr - pl) > SMALL_QUICKSORT)]: partition, push the larger
    part, go on with the smaller. *)
Fixpoint partitions (fuel : nat) (tosort : list nat) (pl pr : nat)
    (cdepth : Z) (stack : list frame)
    : list nat * nat * nat * list frame :=
  match fuel with
  | O => (tosort, pl, pr, stack)
  | S fuel' =>
      if Nat.ltb SMALL_QUICKSORT (pr - pl) then
        let '(tosort, pi) := partition tosort pl pr in
        let cdepth := (cdepth - 1)%Z in
        if Nat.ltb (pi - pl) (pr - pi)
        then partitions fuel' tosort pl (pi - 1) cdepth
               ((S pi, pr, cdepth) :: stack)
        else partitions fuel' tosort (S pi) pr cdepth
               ((pl, pi - 1, cdepth) :: stack)
      else (tosort, pl, pr, stack)
  end.

(** [while (1)]: sort the range at hand, then pop the next one. *)
Fixpoint sort_loop (fuel : nat) (tosort : list nat) (pl pr : nat)
    (cdepth : Z) (stack : list frame) : list nat :=
  match fuel with
  | O => tosort
  | S fuel' =>
      let '(tosort, stack) :=
        if (cdepth <? 0)%Z
        then (aheapsort tosort pl (pr - pl + 1), stack)
        else
          let '(tosort, pl, pr, stack) :=
            partitions (length tosort) tosort pl pr cdepth stack in
          (insertion_sort tosort pl pr, stack) in
      match stack with
      | [] => tosort
      | (pl, pr, cdepth) :: stack => sort_loop fuel' tosort pl pr cdepth stack
      end
  end.

(** [npy_get_msb(num) * 2] *)
Definition depth_limit (num : nat) : Z := (2 * Z.of_nat (Nat.log2 num))%Z.

Definition aquicksort_from (cdepth : Z) : list nat :=
  let num := length v in
  sort_loop (S num) (seq 0 num) 0 (num - 1) cdepth [].

Definition aquicksort : list nat := aquicksort_from (depth_limit (length v)).

End Indirect.

End Numpy.

(** ** The program *)

Module Convert.
Import PyStr Pandas.

(** [list(s)] for a set [s] of strings: the elements in the order of the
    set's hash table.  The order depends on the strings' hashes, which
    CPython salts afresh in every process, so it is a parameter of a run;
    all that is known of it is that it lists the elements, each once. *)
Record SetOrder := mkSetOrder {
  set_list : list string -> list string;
  set_list_perm : forall l, NoDup l -> set_list l ≡ₚ l
}.

Definition priority_cols : list string :=
  ["type"; "sourceName"; "value"; "unit"; "startDate"; "endDate";
   "creationDate"].

Definition TEMP_BASAL : string :=
  "com.loopkit.InsulinKit.MetadataKeyProgrammedTempBasalRate".
Definition SCHEDULED_BASAL : string :=
  "com.loopkit.InsulinKit.MetadataKeyScheduledBasalRate".
Definition ABSORPTION_TIME : string :=
  "com.loudnate.CarbKit.HKMetadataKey.AbsorptionTimeMinutes".

Definition loop_cols : list string :=
  [TEMP_BASAL; SCHEDULED_BASAL; ABSORPTION_TIME].

(** [if c in original_cols: shifted_cols.append(c)] *)
Definition append_if_in (original_cols shifted_cols : list string) (c : string)
    : list string :=
  if bool_decide (c ∈ original_cols) then shifted_cols ++ [c] else shifted_cols.

Definition shifted_cols_of (original_cols : list string) : list string :=
  let shifted_cols := priority_cols in
  let shifted_cols := append_if_in original_cols shifted_cols TEMP_BASAL in
  let shifted_cols := append_if_in original_cols shifted_cols SCHEDULED_BASAL in
  let shifted_cols := append_if_in original_cols shifted_cols ABSORPTION_TIME in
  shifted_cols.

(** [list(set(original_cols) - set(shifted_cols))] *)
Definition remaining_cols_of (so : SetOrder) (original_cols shifted_cols : list string)
    : list string :=
  set_list so (list_difference (remove_dups original_cols) shifted_cols).

Definition QUANTITY_PREFIX : string := "HKQuantityTypeIdentifier".
Definition CATEGORY_PREFIX : string := "HKCategoryTypeIdentifier".
Definition CHARACTERISTIC_PREFIX : string := "HKCharacteristicTypeIdentifier".

(** [xml_to_csv] from the collected records up to the reordering of the
    columns. *)
Definition reshape (so : SetOrder) (attribute_list : list dict)
    : result DataFrame :=
  let health_df := from_records attribute_list in
  health_df ← str_replace_attr "type" QUANTITY_PREFIX EmptyString health_df;
  health_df ← str_replace_attr "type" CATEGORY_PREFIX EmptyString health_df;
  let health_df := rename_columns CHARACTERISTIC_PREFIX EmptyString health_df in
  let original_cols := columns health_df in
  let shifted_cols := shifted_cols_of original_cols in
  let remaining_cols := remaining_cols_of so original_cols shifted_cols in
  let reordered_cols := shifted_cols ++ remaining_cols in
  reindex reordered_cols health_df.

(** The second half of [xml_to_csv]: from the collected records to the
    table returned, sorted by newest data first. *)
Definition normalize (so : SetOrder) (qs : ArgSort) (attribute_list : list dict)
    : result DataFrame :=
  health_df ← reshape so attribute_list;
  sort_values_desc qs "startDate" health_df.

(** [xml_to_csv] on a parsed document. *)
Definition xml_to_csv (so : SetOrder) (qs : ArgSort) (doc : Extract.xml)
    : result DataFrame :=
  normalize so qs (Extract.extract doc).

Definition RENPHO : string := "RENPHO Health".

(** [extract_biometrics_data(df)], on the value of the table. *)
Definition extract_biometrics_data (df : DataFrame) : result DataFrame :=
  source ← column df "sourceName";
  type_ ← column df "type";
  let types_to_keep := unique (select (eq_scalar source RENPHO) type_) in
  let filtered_df := select_rows (isin type_ types_to_keep) df in
  sort_values_multi ["type"; "creationDate"] [true; false] filtered_df.

(** *** Tables as objects

    A [DataFrame] is a mutable object reached through a reference; the
    heap maps references to the tables they denote. *)

Abbreviation heap := (gmap nat DataFrame).

Definition alloc (df : DataFrame) (h : heap) : nat * heap :=
  let r := fresh (dom h) in (r, <[r := df]> h).

(** [extract_biometrics_data(df)] on a reference: indexing with a mask and
    [sort_values] without [inplace] each build a new table. *)
Definition extract_biometrics_data_ref (df : nat) (h : heap)
    : result (nat * heap) :=
  match h !! df with
  | None => Raise KeyError
  | Some d =>
      source ← column d "sourceName";
      type_ ← column d "type";
      let types_to_keep := unique (select (eq_scalar source RENPHO) type_) in
      let '(filtered_df, h1) := alloc (select_rows (isin type_ types_to_keep) d) h in
      match h1 !! filtered_df with
      | None => Raise KeyError
      | Some f =>
          sorted ← sort_values_multi ["type"; "creationDate"] [true; false] f;
          Ok (alloc sorted h1)
      end
  end.

(** *** Files *)

(** The working directory: file names to contents, the bytes on disk.
    Text written through a file opened with [newline] left at [None] has
    its line feeds written as the platform's line separator; the platform
    here is one where that is the line feed itself. *)
Abbreviation files := (gmap string string).

(** A computation on the files that may raise; what it wrote before
    raising stays written. *)
Definition IO (A : Type) : Type := files -> files * result A.

Definition io_bind {A B} (m : IO A) (f : A -> IO B) : IO B :=
  fun fs =>
    match m fs with
    | (fs', Ok a) => f a fs'
    | (fs', Raise e) => (fs', Raise e)
    end.

Notation "'do' x <- m ; k" := (io_bind m (fun x => k))
  (at level 10, x name, m at level 100, k at level 200).

Definition TEMP_FILE : string := "temp_preprocessed_export.xml".

(** A text file is decoded a block at a time while its lines are read.
    When the bytes are not well-formed UTF-8 the decoder raises in the
    middle of the loop over the lines, after the loop has been handed
    [lines_read]: some of the leading lines of the file, how many being a
    matter of the block size and of where the bad bytes are. *)
Record TextReader := mkTextReader {
  lines_read : string -> list string;
  lines_read_prefix :
    forall content, lines_read content `prefix_of` PyStr.readlines content
}.

Section Program.

Variable reader : TextReader.
(** The XML parser behind [ET.iterparse]: the document of a well-formed
    text, nothing for any other. *)
Variable parse : string -> option Extract.xml.
Variable so : SetOrder.
Variable qs : ArgSort.
(** [dt.datetime.now().strftime('%Y-%m-%d')] *)
Variable today : string.

(** The input is opened before the temporary file, and opening the
    temporary file for writing empties it: asked to preprocess the
    temporary file itself, the loop finds nothing to read.  What the loop
    wrote before an exception stays in the temporary file, which the
    [with] statement closes. *)
Definition preprocess_to_temp_file (file_path : string) : IO string :=
  fun fs =>
    match fs !! file_path with
    | None => (fs, Raise FileNotFoundError)
    | Some content =>
        let content :=
          if String.eqb file_path TEMP_FILE then EmptyString else content in
        if utf8_valid content then
          (<[TEMP_FILE := Preprocess.preprocess_text content]> fs, Ok TEMP_FILE)
        else
          (<[TEMP_FILE :=
               String.concat EmptyString
                 (Preprocess.preprocess_lines (lines_read reader content))]> fs,
           Raise UnicodeDecodeError)
    end.

Definition xml_to_csv_file (file_path : string) : IO DataFrame :=
  fun fs =>
    match fs !! file_path with
    | None => (fs, Raise FileNotFoundError)
    | Some text =>
        match parse text with
        | None => (fs, Raise ParseError)
        | Some doc => (fs, xml_to_csv so qs doc)
        end
    end.

Definition csv_name (filename_prefix : string) : string :=
  String.append filename_prefix
    (String.append "_" (String.append today ".csv")).

Definition save_to_csv (df : DataFrame) (filename_prefix : string) : IO unit :=
  fun fs => (<[csv_name filename_prefix := to_csv df]> fs, Ok tt).

Definition remove_temp_file (temp_file_path : string) : IO unit :=
  fun fs =>
    match fs !! temp_file_path with
    | None => (fs, Raise FileNotFoundError)
    | Some _ => (delete temp_file_path fs, Ok tt)
    end.

Definition lift {A} (r : result A) : IO A := fun fs => (fs, r).

Definition main : IO unit :=
  let file_path := "export.xml" in
  do temp_file_path <- preprocess_to_temp_file file_path;
  do health_df <- xml_to_csv_file temp_file_path;
  do _u <- save_to_csv health_df "apple_health_export";
  do biometrics_df <- lift (extract_biometrics_data health_df);
  do _v <- save_to_csv biometrics_df "biometrics_export";
  remove_temp_file temp_file_path.

End Program.

End Convert.

(** * Properties *)

(** ** The order of strings *)

Module StrOrder.

Lemma ascii_compare_refl a : Ascii.compare a a = Eq.
Proof. unfold Ascii.compare. apply N.compare_refl. Qed.

Lemma compare_refl s : String.compare s s = Eq.
Proof. induction s as [|a s IH]; simpl; [done|]. by rewrite ascii_compare_refl. Qed.

Lemma ascii_compare_trans c a b d :
  Ascii.compare a b = c -> Ascii.compare b d = c -> Ascii.compare a d = c.
Proof.
  unfold Ascii.compare. destruct c; intros H1 H2.
  - apply N.compare_eq_iff in H1, H2. apply N.compare_eq_iff. congruence.
  - rewrite N.compare_lt_iff in *. lia.
  - rewrite N.compare_gt_iff in *. lia.
Qed.

Lemma compare_lt_trans s1 : forall s2 s3,
  String.compare s1 s2 = Lt -> String.compare s2 s3 = Lt ->
  String.compare s1 s3 = Lt.
Proof.
  induction s1 as [|a s1 IH]; intros [|b s2] [|d s3]; simpl; try done.
  destruct (Ascii.compare a b) eqn:Hab; try done;
    destruct (Ascii.compare b d) eqn:Hbd; try done; intros H1 H2.
  - apply Ascii.compare_eq_iff in Hab, Hbd. subst.
    rewrite ascii_compare_refl. eauto.
  - apply Ascii.compare_eq_iff in Hab. subst. by rewrite Hbd.
  - apply Ascii.compare_eq_iff in Hbd. subst. by rewrite Hab.
  - by rewrite (ascii_compare_trans Lt a b d).
Qed.

Lemma leb_refl s : String.leb s s = true.
Proof. unfold String.leb. by rewrite compare_refl. Qed.

Lemma leb_trans s1 s2 s3 :
  String.leb s1 s2 = true -> String.leb s2 s3 = true -> String.leb s1 s3 = true.
Proof.
  unfold String.leb.
  destruct (String.compare s1 s2) eqn:H12; try done;
    destruct (String.compare s2 s3) eqn:H23; try done; intros _ _.
  - apply String.compare_eq_iff in H12, H23. subst. by rewrite compare_refl.
  - apply String.compare_eq_iff in H12. subst. by rewrite H23.
  - apply String.compare_eq_iff in H23. subst. by rewrite H12.
  - by rewrite (compare_lt_trans s1 s2 s3).
Qed.

Lemma leb_false_flip s1 s2 : String.leb s1 s2 = false -> String.leb s2 s1 = true.
Proof. destruct (String.leb_total s1 s2) as [H|H]; congruence. Qed.

End StrOrder.

(** ** Sorting *)

Module SortTheory.
Import Pandas.

Section Insertion.
Context {A : Type} (R : relation A) (before : A -> A -> bool).
Hypothesis before_true : forall x y, before x y = true -> R x y.
Hypothesis before_false : forall x y, before x y = false -> R y x.

Lemma insert_sorted_perm x l : insert_sorted before x l ≡ₚ x :: l.
Proof.
  induction l as [|y l IH]; simpl; [done|].
  destruct (before x y); [done|].
  rewrite IH. apply Permutation_swap.
Qed.

Lemma stable_sort_perm l : stable_sort before l ≡ₚ l.
Proof.
  induction l as [|x l IH]; simpl; [done|].
  by rewrite insert_sorted_perm, IH.
Qed.

Lemma HdRel_insert_sorted x y l :
  R y x -> HdRel R y l -> HdRel R y (insert_sorted before x l).
Proof.
  intros Hyx Hl. destruct l as [|z l]; simpl.
  - by constructor.
  - destruct (before x z); constructor; [done|]. by inversion Hl.
Qed.

Lemma Sorted_insert_sorted x l :
  Sorted R l -> Sorted R (insert_sorted before x l).
Proof.
  induction 1 as [|y l Hl IH Hhd]; simpl.
  - repeat constructor.
  - destruct (before x y) eqn:Hxy.
    + constructor; [by constructor|]. constructor. by apply before_true.
    + constructor; [done|]. apply HdRel_insert_sorted; [|done].
      by apply before_false.
Qed.

Lemma Sorted_stable_sort l : Sorted R (stable_sort before l).
Proof.
  induction l as [|x l IH]; simpl; [constructor|].
  by apply Sorted_insert_sorted.
Qed.

End Insertion.

(** Stability: a class of elements that the order does not tell apart
    keeps its order of appearance. *)
Section Stability.
Context {A : Type} (leb : A -> A -> bool).
Context (P : A -> Prop) `{!forall x, Decision (P x)}.
Hypothesis class_leb : forall x y, P x -> P y -> leb x y = true.

Lemma filter_insert_sorted x l :
  filter P (insert_sorted leb x l) = filter P (x :: l).
Proof.
  induction l as [|y l IH]; simpl; [done|].
  destruct (leb x y) eqn:Hxy; [done|].
  rewrite filter_cons, IH, !filter_cons.
  destruct (decide (P y)) as [Hy|Hy]; destruct (decide (P x)) as [Hx|Hx];
    try done.
  rewrite class_leb in Hxy; done.
Qed.

Lemma filter_stable_sort l : filter P (stable_sort leb l) = filter P l.
Proof.
  induction l as [|x l IH]; simpl; [done|].
  by rewrite filter_insert_sorted, !filter_cons, IH.
Qed.

End Stability.

(** A sort of index arrays that keeps equal strings in index order. *)
Definition key_leb (p q : string * nat) : bool := String.leb (fst p) (fst q).
Definition key_le (p q : string * nat) : Prop := str_le (fst p) (fst q).

Definition argsort_with (before : string * nat -> string * nat -> bool)
    (l : list string) : list nat :=
  map snd (stable_sort before (zip l (seq 0 (length l)))).

Lemma key_leb_true p q : key_leb p q = true -> key_le p q.
Proof. done. Qed.
Lemma key_leb_false p q : key_leb p q = false -> key_le q p.
Proof. apply StrOrder.leb_false_flip. Qed.
Lemma snd_zip_seq (l : list string) n :
  map snd (zip l (seq n (length l))) = seq n (length l).
Proof.
  revert n. induction l as [|x l IH]; intros n; simpl; [done|].
  by rewrite IH.
Qed.

Lemma zip_seq_lookup (l : list string) :
  Forall (fun p => l !! snd p = Some (fst p)) (zip l (seq 0 (length l))).
Proof.
  apply Forall_forall. intros [s i] Hin.
  apply list_elem_of_lookup in Hin as [j Hj].
  apply lookup_zip_with_Some in Hj as (x & y & Heq & Hx & Hy).
  injection Heq as -> ->.
  apply lookup_seq in Hy as [-> _]. done.
Qed.

Section ArgsortWith.
Context (before : string * nat -> string * nat -> bool).
Hypothesis before_true : forall x y, before x y = true -> key_le x y.
Hypothesis before_false : forall x y, before x y = false -> key_le y x.

Lemma argsort_with_perm l : argsort_with before l ≡ₚ seq 0 (length l).
Proof.
  unfold argsort_with. rewrite stable_sort_perm. by rewrite snd_zip_seq.
Qed.

Lemma argsort_with_sorted l :
  Sorted str_le
    (map (fun i => default EmptyString (l !! i)) (argsort_with before l)).
Proof.
  unfold argsort_with.
  pose proof (Sorted_stable_sort key_le before before_true before_false
                (zip l (seq 0 (length l)))) as Hs.
  assert (Forall (fun p => l !! snd p = Some (fst p))
            (stable_sort before (zip l (seq 0 (length l))))) as Hf.
  { rewrite stable_sort_perm. apply zip_seq_lookup. }
  induction Hs as [|p ps Hps IH Hhd]; simpl; [constructor|].
  apply Forall_cons in Hf as [Hp Hf].
  constructor; [by apply IH|].
  destruct Hhd as [|q ps Hpq]; simpl; constructor.
  apply Forall_cons in Hf as [Hq _].
  by rewrite Hp, Hq.
Qed.

End ArgsortWith.

End SortTheory.

Module Instances.
Import Pandas Convert SortTheory.

(** A sort that happens to keep equal strings in index order. *)
Definition stable_argsort : ArgSort :=
  mkArgSort (argsort_with key_leb)
    (argsort_with_perm key_leb)
    (argsort_with_sorted key_leb key_leb_true key_leb_false).

(** What [argsort] promises of its result [a] for the strings [l]. *)
Definition ascending_indices (l : list string) (a : list nat) : Prop :=
  a ≡ₚ seq 0 (length l) /\
  Sorted str_le (map (fun i => default EmptyString (l !! i)) a).

#[local] Instance ascending_indices_dec l a : Decision (ascending_indices l a).
Proof. unfold ascending_indices, str_le. apply _. Defined.

(** numpy's sort as an [ArgSort]: the result of [Numpy.aquicksort].  That
    the introsort sorts is checked on the result rather than proved of the
    algorithm; the other branch is there for the type only, and where a
    lemma below computes with this sort it says that the result is
    [Numpy.aquicksort]'s. *)
Definition numpy_indices (l : list string) : list nat :=
  let a := Numpy.aquicksort l in
  if decide (ascending_indices l a) then a else argsort_with key_leb l.

Lemma numpy_indices_perm l : numpy_indices l ≡ₚ seq 0 (length l).
Proof.
  unfold numpy_indices. case_decide as H; [apply H|].
  apply argsort_with_perm.
Qed.

Lemma numpy_indices_sorted l :
  Sorted str_le (map (fun i => default EmptyString (l !! i)) (numpy_indices l)).
Proof.
  unfold numpy_indices. case_decide as H; [apply H|].
  apply (argsort_with_sorted key_leb key_leb_true key_leb_false).
Qed.

Definition numpy_argsort : ArgSort :=
  mkArgSort numpy_indices numpy_indices_perm numpy_indices_sorted.

(** A reader whose decoder raises on the first block it reads, before the
    loop has been handed a line.  The runs below are on well-formed
    input, where the reader plays no part. *)
Definition first_block_reader : TextReader :=
  mkTextReader (fun _ => []) (fun content => prefix_nil (PyStr.readlines content)).

Lemma id_perm (l : list string) : NoDup l -> l ≡ₚ l.
Proof. done. Qed.
Lemma reverse_perm (l : list string) : NoDup l -> reverse l ≡ₚ l.
Proof. intros _. apply reverse_Permutation. Qed.

(** A set order that lists the elements as given, and one that lists them
    backwards. *)
Definition forward_order : SetOrder := mkSetOrder (fun l => l) id_perm.
Definition backward_order : SetOrder := mkSetOrder reverse reverse_perm.

End Instances.


(** ** The text preprocessor *)

Module PreprocessTheory.
Import PyStr Preprocess.

Definition not_VT (c : ascii) : bool := negb (Ascii.eqb c VT).

Lemma strip_is_filter line :
  strip_invisible_character line = filter_chars not_VT line.
Proof.
  unfold strip_invisible_character, replace.
  induction line as [|c s IH]; [done|].
  cbn [replace_from filter_chars startswith String.length].
  unfold not_VT at 1. rewrite (Ascii.eqb_sym c VT).
  destruct (Ascii.eqb VT c); simpl; by rewrite IH.
Qed.

Lemma occurs_filter_chars c keep s :
  keep c = false -> occurs c (filter_chars keep s) = false.
Proof.
  intros Hc. induction s as [|d s IH]; simpl; [done|].
  destruct (keep d) eqn:Hd; simpl; [|done].
  rewrite IH, orb_false_r. apply Ascii.eqb_neq. congruence.
Qed.

Lemma step_emit st line :
  skip_dtd st = false -> contains DOCTYPE line = false ->
  step st line = State false (outfile st ++ [strip_invisible_character line]).
Proof.
  intros Hs Hd. unfold step. rewrite Hd, Hs.
  by destruct (contains DTD_END _).
Qed.

Lemma step_drop st line :
  (skip_dtd st = true \/ contains DOCTYPE line = true) ->
  step st line = State (negb (contains DTD_END line)) (outfile st).
Proof.
  intros H. unfold step.
  assert ((if contains DOCTYPE line then true else skip_dtd st) = true) as ->.
  { destruct H as [->| ->]; [by destruct (contains _ _)|done]. }
  by destruct (contains DTD_END line).
Qed.

Lemma run_cons st l ls : run st (l :: ls) = run (step st l) ls.
Proof. done. Qed.

Lemma run_app st ls1 ls2 : run st (ls1 ++ ls2) = run (run st ls1) ls2.
Proof. apply fold_left_app. Qed.

Lemma run_emit out ls :
  Forall (fun l => contains DOCTYPE l = false) ls ->
  run (State false out) ls =
  State false (out ++ map strip_invisible_character ls).
Proof.
  intros H. revert out.
  induction H as [|l ls Hl _ IH]; intros out.
  - simpl. by rewrite app_nil_r.
  - rewrite run_cons, step_emit by done. rewrite IH. simpl.
    by rewrite <- app_assoc.
Qed.

Lemma run_inside out ls :
  Forall (fun l => contains DTD_END l = false) ls ->
  run (State true out) ls = State true out.
Proof.
  induction 1 as [|l ls Hl _ IH]; [done|].
  rewrite run_cons, step_drop by auto. rewrite Hl. apply IH.
Qed.

(** A declaration block: it opens on a line with the start marker and
    closes on the first line from there on with the end marker. *)
Lemma run_block b out blk e :
  (forall d, head (blk ++ [e]) = Some d -> contains DOCTYPE d = true) ->
  Forall (fun l => contains DTD_END l = false) blk ->
  contains DTD_END e = true ->
  run (State b out) (blk ++ [e]) = State false out.
Proof.
  intros Hd Hblk He. destruct blk as [|d blk].
  - simpl in Hd. rewrite app_nil_l, run_cons, step_drop by (right; by apply Hd).
    by rewrite He.
  - apply Forall_cons in Hblk as [Hde Hblk]. simpl in Hd.
    rewrite <- app_comm_cons, run_cons, step_drop by (right; by apply Hd).
    rewrite Hde. simpl.
    rewrite run_app, run_inside by done.
    rewrite run_cons, step_drop by auto. by rewrite He.
Qed.

Lemma run_outfile st ls :
  outfile (run st ls) = outfile st ++ outfile (run (State (skip_dtd st) []) ls).
Proof.
  revert st. induction ls as [|l ls IH]; intros st.
  - simpl. by rewrite app_nil_r.
  - rewrite !run_cons, IH, (IH (step (State _ []) l)).
    unfold step; simpl.
    destruct (if contains DOCTYPE l then true else skip_dtd st); simpl.
    + done.
    + by rewrite <- app_assoc.
Qed.

Lemma preprocess_lines_app_reset ls1 ls2 out :
  run (State false []) ls1 = State false out ->
  preprocess_lines (ls1 ++ ls2) = out ++ preprocess_lines ls2.
Proof.
  intros H. unfold preprocess_lines. rewrite run_app, H.
  apply (run_outfile (State false out)).
Qed.

(** C9. A line read outside a declaration block is written with every
    occurrence of U+000B removed and all its other characters unchanged and
    in order. *)
Theorem strip_outside_block st line :
  skip_dtd st = false ->
  contains DOCTYPE line = false ->
  exists emitted,
    outfile (step st line) = outfile st ++ [emitted] /\
    occurs VT emitted = false /\
    emitted = filter_chars not_VT line.
Proof.
  intros Hs Hd. exists (strip_invisible_character line).
  rewrite step_emit by done. split; [done|].
  rewrite strip_is_filter. split; [|done].
  apply occurs_filter_chars. unfold not_VT. by rewrite Ascii.eqb_refl.
Qed.

Definition line_with_VT : string :=
  String "a" (String VT (String "b" (String VT (String "010"%char EmptyString)))).

Lemma strip_outside_block_witness :
  exists emitted,
    outfile (step (State false ["<x>"]) line_with_VT) = ["<x>"] ++ [emitted] /\
    occurs VT emitted = false /\
    emitted = filter_chars not_VT line_with_VT.
Proof. apply (strip_outside_block (State false ["<x>"]) line_with_VT); reflexivity. Defined.

(** Two declaration blocks, the second opening on the line right after the
    first one's end marker. *)
Definition two_blocks : list string :=
  ["<!DOCTYPE a ["; "]>"; "<!DOCTYPE b ["; "]>"; "<HealthData/>"].

(** C2, as stated, fails: the line that immediately follows the end-marker
    line of the first block carries a start marker itself, and is dropped
    instead of emitted. *)
Lemma line_after_end_marker_dropped :
  contains DOCTYPE "<!DOCTYPE a [" = true /\
  contains DTD_END "]>" = true /\
  preprocess_lines two_blocks = ["<HealthData/>"].
Proof. repeat split. Qed.

(** C2, amended.  With no start marker anywhere, every line is emitted,
    stripped.  A declaration block, from the first line with the start
    marker through the first line from there on with the end marker, is
    dropped whole, and the lines after it are processed as a fresh input:
    the line right after the end-marker line is emitted, stripped, unless
    it carries a start marker itself. *)
Theorem declaration_block_elided :
  (forall ls,
     Forall (fun l => contains DOCTYPE l = false) ls ->
     preprocess_lines ls = map strip_invisible_character ls) /\
  (forall pre blk e rest,
     Forall (fun l => contains DOCTYPE l = false) pre ->
     (forall d, head (blk ++ [e]) = Some d -> contains DOCTYPE d = true) ->
     Forall (fun l => contains DTD_END l = false) blk ->
     contains DTD_END e = true ->
     preprocess_lines (pre ++ blk ++ e :: rest) =
     map strip_invisible_character pre ++ preprocess_lines rest) /\
  (forall n rest,
     contains DOCTYPE n = false ->
     preprocess_lines (n :: rest) =
     strip_invisible_character n :: preprocess_lines rest).
Proof.
  split; [|split].
  - intros ls H. unfold preprocess_lines. by rewrite run_emit.
  - intros pre blk e rest Hpre Hd Hblk He.
    replace (pre ++ blk ++ e :: rest) with ((pre ++ blk ++ [e]) ++ rest)
      by (by rewrite <- !app_assoc).
    apply preprocess_lines_app_reset.
    rewrite run_app, run_emit by done. simpl.
    by apply run_block.
  - intros n rest Hn.
    apply (preprocess_lines_app_reset [n] rest [strip_invisible_character n]).
    by rewrite run_cons, step_emit.
Qed.

Lemma declaration_block_elided_witness :
  preprocess_lines
    (["<?xml?>"] ++ ["<!DOCTYPE HealthData ["; "<!ELEMENT HealthData>"]
       ++ "]>" :: ["<HealthData>"; "</HealthData>"]) =
  ["<?xml?>"; "<HealthData>"; "</HealthData>"].
Proof.
  rewrite (proj1 (proj2 declaration_block_elided)).
  - rewrite (proj1 declaration_block_elided); [reflexivity|].
    repeat constructor.
  - repeat constructor.
  - intros d Hd. injection Hd as <-. reflexivity.
  - repeat constructor.
  - reflexivity.
Defined.

End PreprocessTheory.

(** ** The streaming record extractor *)

Module ExtractTheory.
Import Extract.

(** Induction on documents, with the hypothesis for every child. *)
Lemma xml_induction (P : xml -> Prop) :
  (forall t a ks, Forall P ks -> P (Node t a ks)) -> forall x, P x.
Proof.
  intros H. fix IH 1. intros [t a ks]. apply H.
  induction ks as [|k ks IHks]; constructor; [apply IH|apply IHks].
Qed.

(** The children of an element, parsed one after the other. *)
Fixpoint parse_kids (ks : list xml) (p : parser) : list nat * parser :=
  match ks with
  | [] => ([], p)
  | k :: ks' =>
      let '(i, p') := parse_node k p in
      let '(rest_ids, p'') := parse_kids ks' p' in
      (i :: rest_ids, p'')
  end.

Lemma parse_node_eq t a ks p :
  parse_node (Node t a ks) p =
  let id := next_id p in
  let '(ids, p1) := parse_kids ks (mkParser (S id) (elems p) (events p)) in
  (id, mkParser (next_id p1) (<[id := mkElement t a ids]> (elems p1))
                (events p1 ++ [id])).
Proof.
  simpl. generalize (mkParser (S (next_id p)) (elems p) (events p)) as q.
  assert (forall q,
    (fix parse_kids (ks0 : list xml) (p0 : parser) {struct ks0} :
         list nat * parser :=
       match ks0 with
       | [] => ([], p0)
       | k :: ks' =>
           let '(i, p') := parse_node k p0 in
           let '(rest_ids, p'') := parse_kids ks' p' in (i :: rest_ids, p'')
       end) ks q = parse_kids ks q) as H.
  { induction ks as [|k ks IH]; intros q; [done|]. simpl.
    destruct (parse_node k q) as [i p']. by rewrite IH. }
  intros q. by rewrite H.
Qed.

(** What the loop does to the events of one parsed subtree, whose
    elements have the identifiers from [lo] up to [hi] and are held in [E]:
    it adds the subtree's own attribute dicts, in the order of the end
    tags, and leaves every element of the subtree without attributes. *)
Definition loop_spec (lo hi : nat) (E : gmap nat Element)
    (evs : list nat) (recs : list dict) : Prop :=
  forall (s : gmap nat Element) acc,
    (forall j, lo <= j < hi -> s !! j = E !! j) ->
    exists s' : gmap nat Element,
      fold_left on_end evs (mkLoop s acc) = mkLoop s' (acc ++ recs) /\
      (forall j, lo <= j < hi -> attrib_of s' j = []) /\
      (forall j, ~ (lo <= j < hi) -> s' !! j = s !! j).

Definition node_ok (x : xml) : Prop :=
  forall p id p',
    parse_node x p = (id, p') ->
    id = next_id p /\ next_id p < next_id p' /\
    (forall j, j < next_id p -> elems p' !! j = elems p !! j) /\
    exists evs,
      events p' = events p ++ evs /\
      loop_spec (next_id p) (next_id p') (elems p') evs
                (map xml_attrs (postorder x)).

Definition kids_ok (ks : list xml) : Prop :=
  forall p ids p',
    parse_kids ks p = (ids, p') ->
    next_id p <= next_id p' /\
    (forall j, j < next_id p -> elems p' !! j = elems p !! j) /\
    Forall (fun i => next_id p <= i < next_id p') ids /\
    exists evs,
      events p' = events p ++ evs /\
      loop_spec (next_id p) (next_id p') (elems p') evs
                (map xml_attrs (flat_map postorder ks)).

Lemma attrib_of_lookup (s1 s2 : gmap nat Element) j :
  s1 !! j = s2 !! j -> attrib_of s1 j = attrib_of s2 j.
Proof. unfold attrib_of. by intros ->. Qed.

Lemma kids_ok_of ks : Forall node_ok ks -> kids_ok ks.
Proof.
  induction 1 as [|k ks Hk _ IH]; intros p ids p' Hp; simpl in Hp.
  - injection Hp as <- <-. split; [done|]. split; [done|]. split; [done|].
    exists []. split; [by rewrite app_nil_r|].
    intros s acc _. exists s. simpl. rewrite app_nil_r.
    split; [done|]. split; [lia|done].
  - destruct (parse_node k p) as [i p1] eqn:Hk1.
    destruct (parse_kids ks p1) as [rest p2] eqn:Hk2.
    injection Hp as <- <-.
    destruct (Hk _ _ _ Hk1) as (-> & Hlt & Hold1 & evs1 & Hev1 & Hspec1).
    destruct (IH _ _ _ Hk2) as (Hle & Hold2 & Hin & evs2 & Hev2 & Hspec2).
    split; [lia|]. split.
    { intros j Hj. rewrite Hold2 by lia. by apply Hold1. }
    split.
    { constructor; [lia|]. eapply Forall_impl; [exact Hin|]. simpl. lia. }
    exists (evs1 ++ evs2). split.
    { by rewrite Hev2, Hev1, <- app_assoc. }
    intros s acc Hs.
    destruct (Hspec1 s acc) as (s1 & Hf1 & Hc1 & Hu1).
    { intros j Hj. rewrite Hs by lia. apply Hold2. lia. }
    destruct (Hspec2 s1 (acc ++ map xml_attrs (postorder k)))
      as (s2 & Hf2 & Hc2 & Hu2).
    { intros j Hj. rewrite Hu1 by lia. apply Hs. lia. }
    exists s2. split.
    { rewrite fold_left_app, Hf1, Hf2. simpl.
      by rewrite map_app, <- app_assoc. }
    split.
    { intros j Hj. destruct (decide (j < next_id p1)) as [Hj1|Hj1].
      - rewrite (attrib_of_lookup s2 s1) by (apply Hu2; lia).
        apply Hc1. lia.
      - apply Hc2. lia. }
    intros j Hj. rewrite Hu2 by lia. apply Hu1. lia.
Qed.

(** A child that has been cleared merges nothing into its parent. *)
Lemma merge_cleared (s : gmap nat Element) ids (a : dict) :
  Forall (fun i => attrib_of s i = []) ids ->
  fold_left (merge_metadata s) ids a = a.
Proof.
  induction 1 as [|i ids Hi _ IH]; simpl; [done|].
  unfold merge_metadata at 2. by rewrite Hi.
Qed.

Lemma node_ok_all x : node_ok x.
Proof.
  induction x as [t a ks IHks] using xml_induction.
  intros p id p' Hp. rewrite parse_node_eq in Hp. simpl in Hp.
  destruct (parse_kids ks _) as [ids p1] eqn:Hk.
  injection Hp as <- <-. simpl.
  destruct (kids_ok_of ks IHks _ _ _ Hk)
    as (Hle & Hold & Hin & evs & Hev & Hspec).
  simpl in Hle, Hold, Hin, Hev, Hspec.
  split; [done|]. split; [lia|]. split.
  { intros j Hj. rewrite lookup_insert_ne by lia. apply Hold. lia. }
  exists (evs ++ [next_id p]). split.
  { by rewrite Hev, <- app_assoc. }
  intros s acc Hs.
  destruct (Hspec s acc) as (s1 & Hf1 & Hc1 & Hu1).
  { intros j Hj. rewrite Hs by lia. apply lookup_insert_ne. lia. }
  assert (s1 !! next_id p = Some (mkElement t a ids)) as Hself.
  { rewrite Hu1 by lia. rewrite Hs by lia. apply lookup_insert_eq. }
  exists (alter clear (next_id p) s1). split.
  { rewrite fold_left_app, Hf1. simpl. unfold on_end. simpl.
    unfold attrib_of at 1, children_of. rewrite Hself. simpl.
    rewrite merge_cleared.
    - by rewrite map_app, <- app_assoc.
    - eapply Forall_impl; [exact Hin|]. intros i Hi. by apply Hc1. }
  split.
  { intros j Hj. unfold attrib_of.
    destruct (decide (j = next_id p)) as [->|Hne].
    - by rewrite lookup_alter_eq, Hself.
    - rewrite lookup_alter_ne by done. apply Hc1. lia. }
  intros j Hj. rewrite lookup_alter_ne by lia. apply Hu1. lia.
Qed.

(** For every document, every element's record is just the element's own
    attributes: by the time an element ends, each of its children has
    ended, and been cleared, before it. *)
Lemma extract_own_attributes doc :
  extract doc = map xml_attrs (postorder doc).
Proof.
  unfold extract, iterparse.
  destruct (parse_node doc (mkParser 0 ∅ [])) as [id p'] eqn:Hp.
  destruct (node_ok_all doc _ _ _ Hp) as (_ & _ & _ & evs & Hev & Hspec).
  simpl in *. rewrite Hev.
  destruct (Hspec (elems p') []) as (s' & -> & _); done.
Qed.

(** A heart-rate record with one metadata entry. *)
Definition heart_rate_doc : xml :=
  Node "HealthData" []
    [Node "Record"
       [("type", "HKQuantityTypeIdentifierHeartRate"); ("value", "60");
        ("startDate", "2024-01-02 08:00:00 -0700")]
       [Node "MetadataEntry"
          [("key", "HKMetadataKeyHeartRateMotionContext"); ("value", "1")]
          []]].

(** C1.  The loop means to add one entry per child with two attributes, and
    the specification says it does; but each child is cleared at its own
    end event, before its parent's.  So for every document the records are
    the elements' own attributes and nothing else; on [heart_rate_doc] the
    record of the [Record] element has its three attributes and lacks the
    entry for its metadata child, which the specification's extraction
    has. *)
Theorem metadata_entry_not_merged :
  (forall doc, extract doc = map xml_attrs (postorder doc)) /\
  extract heart_rate_doc =
    [[("key", "HKMetadataKeyHeartRateMotionContext"); ("value", "1")];
     [("type", "HKQuantityTypeIdentifierHeartRate"); ("value", "60");
      ("startDate", "2024-01-02 08:00:00 -0700")];
     []] /\
  spec_extract heart_rate_doc =
    [[("key", "HKMetadataKeyHeartRateMotionContext"); ("value", "1")];
     [("type", "HKQuantityTypeIdentifierHeartRate"); ("value", "60");
      ("startDate", "2024-01-02 08:00:00 -0700");
      ("HKMetadataKeyHeartRateMotionContext", "1")];
     []].
Proof.
  split; [exact extract_own_attributes|].
  split.
  - rewrite extract_own_attributes. reflexivity.
  - reflexivity.
Qed.

End ExtractTheory.

(** ** Tables *)

Module TableTheory.
Import PyStr Pandas.

Lemma index_of_Some c cols :
  c ∈ cols -> exists i, index_of c cols = Some i.
Proof.
  induction cols as [|c' cols IH]; intros Hin; [by apply elem_of_nil in Hin|].
  simpl. destruct (String.eqb_spec c c') as [->|Hne]; [by eexists|].
  apply elem_of_cons in Hin as [?|Hin]; [done|].
  destruct (IH Hin) as [i ->]. by eexists.
Qed.

Lemma index_of_None c cols : c ∉ cols -> index_of c cols = None.
Proof.
  induction cols as [|c' cols IH]; intros Hin; [done|].
  simpl. apply not_elem_of_cons in Hin as [Hne Hin].
  destruct (String.eqb_spec c c') as [->|_]; [done|].
  by rewrite IH.
Qed.

Lemma index_of_lookup c cols i :
  index_of c cols = Some i -> cols !! i = Some c.
Proof.
  revert i. induction cols as [|c' cols IH]; intros i; simpl; [done|].
  destruct (String.eqb_spec c c') as [->|Hne].
  - by intros [= <-].
  - destruct (index_of c cols) as [j|]; simpl; [|done].
    intros [= <-]. by apply IH.
Qed.

Lemma column_Ok df c :
  c ∈ columns df ->
  column df c = Ok (map (cell_of (columns df) c) (rows df)).
Proof.
  intros Hin. unfold column, cell_of.
  by destruct (index_of_Some _ _ Hin) as [i ->].
Qed.

Lemma select_map {A B} (f : A -> bool) (g : A -> B) l :
  select (map f l) (map g l) = map g (filter (fun x => f x = true) l).
Proof.
  induction l as [|x l IH]; simpl; [done|].
  destruct (f x) eqn:E.
  - rewrite filter_cons_True by done. simpl. by rewrite IH.
  - rewrite filter_cons_False by (by rewrite E). done.
Qed.

Lemma select_bool_decide {A} (P : A -> Prop) `{!forall x, Decision (P x)} l :
  select (map (fun x => bool_decide (P x)) l) l = filter P l.
Proof.
  induction l as [|x l IH]; simpl; [done|].
  case_bool_decide.
  - rewrite filter_cons_True by done. by rewrite IH.
  - rewrite filter_cons_False by done. done.
Qed.

Lemma filter_none {A} (P : A -> Prop) `{!forall x, Decision (P x)} l :
  (forall x, x ∈ l -> ~ P x) -> filter P l = [].
Proof.
  induction l as [|x l IH]; intros Hnone; [done|].
  rewrite filter_cons_False by (apply Hnone; left).
  apply IH. intros y Hy. apply Hnone. by right.
Qed.

Lemma filter_all {A} (P : A -> Prop) `{!forall x, Decision (P x)} (l : list A) :
  (forall x, x ∈ l -> P x) -> filter P l = l.
Proof.
  induction l as [|x l IH]; intros Hall; [done|].
  rewrite filter_cons_True by (apply Hall; left).
  f_equal. apply IH. intros y Hy. apply Hall. by right.
Qed.

Lemma elem_of_unique x l : x ∈ unique l <-> x ∈ l.
Proof.
  induction l as [|y l IH]; simpl; [done|].
  rewrite !elem_of_cons, list_elem_of_filter, IH.
  destruct (decide (x = y)); tauto.
Qed.

Lemma NoDup_unique l : NoDup (unique l).
Proof.
  induction l as [|y l IH]; simpl; constructor.
  - rewrite list_elem_of_filter. tauto.
  - by apply NoDup_filter.
Qed.

End TableTheory.

(** ** The biometrics filter *)

Module BiometricsTheory.
Import PyStr Pandas Convert TableTheory SortTheory.

(** What the program relies on in the table it filters; every table that
    [xml_to_csv] returns has these labels, each once. *)
Definition full_table (df : DataFrame) : Prop :=
  NoDup (columns df) /\
  "type" ∈ columns df /\ "sourceName" ∈ columns df /\
  "creationDate" ∈ columns df.

Definition type_of (df : DataFrame) (r : list cell) : cell :=
  cell_of (columns df) "type" r.
Definition source_of (df : DataFrame) (r : list cell) : cell :=
  cell_of (columns df) "sourceName" r.
Definition creation_of (df : DataFrame) (r : list cell) : cell :=
  cell_of (columns df) "creationDate" r.

(** The types recorded by the scale. *)
Definition renpho_types (df : DataFrame) : list cell :=
  map (type_of df)
      (filter (fun r => source_of df r = Some RENPHO) (rows df)).

(** The rows the filter keeps, in the order of the table. *)
Definition kept_rows (df : DataFrame) : list (list cell) :=
  filter (fun r => type_of df r ∈ renpho_types df) (rows df).

(** Ascending, respectively descending, order of cells as strings, missing
    values last. *)
Definition cell_le (ascending : bool) (a b : cell) : Prop :=
  cell_leb ascending a b = true.

(** The order of the biometrics table: by type ascending, then by
    creation date descending. *)
Definition bio_le (df : DataFrame) (r1 r2 : list cell) : Prop :=
  (cell_le true (type_of df r1) (type_of df r2) /\
   type_of df r1 <> type_of df r2) \/
  (type_of df r1 = type_of df r2 /\
   cell_le false (creation_of df r1) (creation_of df r2)).

Definition bio_leb (df : DataFrame) (r1 r2 : list cell) : bool :=
  keys_leb [true; false]
    [type_of df r1; creation_of df r1] [type_of df r2; creation_of df r2].

Lemma cell_leb_refl a c : cell_leb a c c = true.
Proof. destruct a, c as [s|]; simpl; try done; apply StrOrder.leb_refl. Qed.

Lemma cell_leb_total a c d : cell_leb a c d = false -> cell_leb a d c = true.
Proof.
  destruct a, c as [s|], d as [t|]; simpl; try done;
    apply StrOrder.leb_false_flip.
Qed.

Lemma cell_leb_trans a c d e :
  cell_leb a c d = true -> cell_leb a d e = true -> cell_leb a c e = true.
Proof.
  destruct a, c as [s|], d as [t|], e as [u|]; simpl; try done;
    eauto using StrOrder.leb_trans.
Qed.

Lemma cell_leb_antisym a c d :
  cell_leb a c d = true -> cell_leb a d c = true -> c = d.
Proof.
  destruct a, c as [s|], d as [t|]; simpl; try done; intros H1 H2; f_equal;
    [|symmetry]; by apply String.leb_antisym.
Qed.

Lemma bio_leb_true df r1 r2 : bio_leb df r1 r2 = true -> bio_le df r1 r2.
Proof.
  unfold bio_leb, bio_le, cell_le. simpl.
  case_bool_decide as Ht.
  - case_bool_decide as Hc.
    + intros _. right. split; [done|]. rewrite Hc. apply cell_leb_refl.
    + intros H. by right.
  - intros H. by left.
Qed.

Lemma bio_leb_false df r1 r2 : bio_leb df r1 r2 = false -> bio_le df r2 r1.
Proof.
  unfold bio_leb, bio_le, cell_le. simpl.
  case_bool_decide as Ht.
  - case_bool_decide as Hc; [done|].
    intros H%cell_leb_total. by right.
  - intros H%cell_leb_total. left. split; [done|]. congruence.
Qed.

#[export] Instance bio_le_trans df : Transitive (bio_le df).
Proof.
  intros r1 r2 r3. unfold bio_le, cell_le.
  intros [[H12 N12]|[E12 H12]] [[H23 N23]|[E23 H23]].
  - left. split; [by eapply cell_leb_trans|].
    intros E. rewrite <- E in H23.
    by apply N12, (cell_leb_antisym true).
  - left. rewrite <- E23. done.
  - left. rewrite E12. done.
  - right. split; [congruence|]. by eapply cell_leb_trans.
Qed.

Lemma index_all_bio df :
  "type" ∈ columns df -> "creationDate" ∈ columns df ->
  exists i j,
    index_of "type" (columns df) = Some i /\
    index_of "creationDate" (columns df) = Some j /\
    index_all ["type"; "creationDate"] (columns df) = Ok [i; j].
Proof.
  intros [i Hi]%index_of_Some [j Hj]%index_of_Some.
  exists i, j. simpl. by rewrite Hi, Hj.
Qed.

Lemma sort_values_bio df :
  "type" ∈ columns df -> "creationDate" ∈ columns df ->
  sort_values_multi ["type"; "creationDate"] [true; false] df =
  Ok (mkDataFrame (columns df) (stable_sort (bio_leb df) (rows df))).
Proof.
  intros Ht Hc. destruct (index_all_bio df Ht Hc) as (i & j & Hi & Hj & Hij).
  unfold sort_values_multi. rewrite Hij. simpl. do 2 f_equal.
  unfold bio_leb, type_of, creation_of, cell_of. by rewrite Hi, Hj.
Qed.

Lemma select_eq_scalar (f g : list cell -> cell) v (l : list (list cell)) :
  select (eq_scalar (map f l) v) (map g l) =
  map g (filter (fun r => f r = Some v) l).
Proof.
  unfold eq_scalar. rewrite map_map.
  rewrite (select_map (fun r => bool_decide (f r = Some v)) g).
  f_equal. apply list_filter_iff. intros r. apply bool_decide_eq_true.
Qed.

Lemma select_isin (g : list cell -> cell) keep (l : list (list cell)) :
  select (isin (map g l) keep) l = filter (fun r => g r ∈ keep) l.
Proof.
  unfold isin. rewrite map_map.
  apply (select_bool_decide (fun r => g r ∈ keep)).
Qed.

(** The filter, step by step, on a table with the labels it needs. *)
Lemma extract_biometrics_data_eq df :
  full_table df ->
  extract_biometrics_data df =
  Ok (mkDataFrame (columns df) (stable_sort (bio_leb df) (kept_rows df))).
Proof.
  intros (_ & Ht & Hs & Hc). unfold extract_biometrics_data.
  rewrite (column_Ok df "sourceName") by done. simpl.
  rewrite (column_Ok df "type") by done. simpl.
  rewrite sort_values_bio by done. simpl.
  rewrite select_eq_scalar, select_isin.
  do 2 f_equal.
  change (bio_leb (select_rows _ df)) with (bio_leb df). f_equal.
  apply list_filter_iff. intros r. apply elem_of_unique.
Qed.

Lemma kept_rows_no_renpho df :
  (forall r, r ∈ rows df -> source_of df r <> Some RENPHO) ->
  kept_rows df = [].
Proof.
  intros H. unfold kept_rows, renpho_types.
  assert (filter (fun r => source_of df r = Some RENPHO) (rows df) = []) as ->.
  { apply filter_none. intros r Hr. by apply H. }
  apply filter_none. intros r _. simpl. apply not_elem_of_nil.
Qed.

Lemma alloc_spec df (h : heap) :
  h !! (alloc df h).1 = None /\
  (alloc df h).2 !! (alloc df h).1 = Some df /\
  (forall r d, h !! r = Some d -> (alloc df h).2 !! r = Some d).
Proof.
  unfold alloc. cbn [fst snd].
  assert (h !! fresh (dom h) = None) as Hf.
  { apply not_elem_of_dom. apply is_fresh. }
  split; [done|]. split; [apply lookup_insert_eq|].
  intros r d Hr. rewrite lookup_insert_ne; [done|]. congruence.
Qed.

(** A table with two rows from the scale and two from other sources. *)
Definition sample_table : DataFrame :=
  mkDataFrame
    ["type"; "sourceName"; "value"; "creationDate"]
    [[Some "Weight"; Some "Phone"; Some "70"; Some "2024-01-01"];
     [Some "Steps"; Some "Phone"; Some "900"; Some "2024-01-03"];
     [Some "Weight"; Some "RENPHO Health"; Some "71"; Some "2024-01-02"];
     [Some "BodyFat"; Some "RENPHO Health"; Some "20"; None]].

(** The same measurements with no row from the scale. *)
Definition sample_table_no_scale : DataFrame :=
  mkDataFrame
    ["type"; "sourceName"; "value"; "creationDate"]
    [[Some "Weight"; Some "Phone"; Some "70"; Some "2024-01-01"];
     [Some "Steps"; Some "Phone"; Some "900"; Some "2024-01-03"]].

Lemma sample_table_full : full_table sample_table.
Proof. repeat split; apply (bool_decide_unpack _); vm_compute; exact I. Defined.

Lemma sample_table_no_scale_full : full_table sample_table_no_scale.
Proof. repeat split; apply (bool_decide_unpack _); vm_compute; exact I. Defined.

(** C5. The biometrics table holds exactly the rows, from any source,
    whose type is among the types of the rows whose source is
    "RENPHO Health"; its rows are in ascending order of type and, for equal
    types, in descending order of creation date, both compared as strings
    (missing values last), rows that agree on both keeping their order. *)
Theorem biometrics_rows_and_order df :
  full_table df ->
  exists out,
    extract_biometrics_data df = Ok out /\
    columns out = columns df /\
    rows out ≡ₚ kept_rows df /\
    StronglySorted (bio_le df) (rows out) /\
    (forall t c,
       filter (fun r => type_of df r = t /\ creation_of df r = c) (rows out) =
       filter (fun r => type_of df r = t /\ creation_of df r = c) (kept_rows df)).
Proof.
  intros Hdf. eexists. split; [by apply extract_biometrics_data_eq|].
  simpl. split; [done|]. split; [apply stable_sort_perm|]. split.
  - apply Sorted_StronglySorted; [apply _|].
    apply Sorted_stable_sort; [apply bio_leb_true|apply bio_leb_false].
  - intros t c. apply filter_stable_sort.
    intros x y [Hx1 Hx2] [Hy1 Hy2]. unfold bio_leb. simpl.
    rewrite Hx1, Hx2, Hy1, Hy2. by rewrite !bool_decide_eq_true_2.
Qed.

Lemma biometrics_rows_and_order_witness :
  exists out,
    extract_biometrics_data sample_table = Ok out /\
    columns out = columns sample_table /\
    rows out ≡ₚ kept_rows sample_table /\
    StronglySorted (bio_le sample_table) (rows out) /\
    (forall t c,
       filter (fun r => type_of sample_table r = t /\ creation_of sample_table r = c)
              (rows out) =
       filter (fun r => type_of sample_table r = t /\ creation_of sample_table r = c)
              (kept_rows sample_table)).
Proof. exact (biometrics_rows_and_order sample_table sample_table_full). Defined.

(** C8. With no row whose source is "RENPHO Health", the filter returns a
    table with the columns of its input and no rows; it does not raise. *)
Theorem biometrics_empty_without_renpho df :
  full_table df ->
  (forall r, r ∈ rows df -> source_of df r <> Some RENPHO) ->
  extract_biometrics_data df = Ok (mkDataFrame (columns df) []).
Proof.
  intros Hdf Hno. rewrite extract_biometrics_data_eq by done.
  by rewrite kept_rows_no_renpho.
Qed.

Lemma biometrics_empty_without_renpho_witness :
  extract_biometrics_data sample_table_no_scale =
  Ok (mkDataFrame (columns sample_table_no_scale) []).
Proof.
  apply (biometrics_empty_without_renpho sample_table_no_scale
           sample_table_no_scale_full).
  intros r Hr. revert r Hr. apply Forall_forall.
  repeat constructor; vm_compute; congruence.
Defined.

(** C10. The filter leaves its argument as it found it: after the call the
    reference passed in, and every other table that existed, denotes the
    same columns and rows in the same order; the result is a new object. *)
Theorem biometrics_input_untouched (h : heap) (df : nat) (d : DataFrame) :
  h !! df = Some d ->
  full_table d ->
  exists r h' out,
    extract_biometrics_data_ref df h = Ok (r, h') /\
    h' !! df = Some d /\
    (forall r0 d0, h !! r0 = Some d0 -> h' !! r0 = Some d0) /\
    h !! r = None /\
    h' !! r = Some out /\
    extract_biometrics_data d = Ok out.
Proof.
  intros Hd Hfull. pose proof Hfull as (_ & Ht & Hs & Hc).
  unfold extract_biometrics_data_ref. rewrite Hd.
  rewrite (column_Ok d "sourceName") by done. simpl.
  rewrite (column_Ok d "type") by done. simpl.
  set (f := select_rows _ d).
  destruct (alloc_spec f h) as (Hfresh1 & Hnew1 & Hold1).
  unfold alloc in Hfresh1, Hnew1, Hold1. cbn [fst snd] in Hfresh1, Hnew1, Hold1.
  rewrite Hnew1. rewrite sort_values_bio by done. simpl.
  set (sorted := mkDataFrame _ _). set (h1 := <[fresh (dom h) := f]> h) in *.
  destruct (alloc_spec sorted h1) as (Hfresh2 & Hnew2 & Hold2).
  exists (alloc sorted h1).1, (alloc sorted h1).2, sorted.
  split; [by destruct (alloc sorted h1)|].
  split; [by apply Hold2, Hold1|].
  split; [by intros r0 d0 H0; apply Hold2, Hold1|].
  split.
  - destruct (h !! (alloc sorted h1).1) as [d2|] eqn:H2; [|done].
    apply Hold1 in H2. congruence.
  - split; [done|].
    unfold extract_biometrics_data.
    rewrite (column_Ok d "sourceName") by done. simpl.
    rewrite (column_Ok d "type") by done. simpl.
    fold f. by rewrite sort_values_bio.
Qed.

Lemma biometrics_input_untouched_witness :
  exists r h' out,
    extract_biometrics_data_ref 0 {[0 := sample_table]} = Ok (r, h') /\
    h' !! 0 = Some sample_table /\
    (forall r0 d0,
       ({[0 := sample_table]} : heap) !! r0 = Some d0 -> h' !! r0 = Some d0) /\
    ({[0 := sample_table]} : heap) !! r = None /\
    h' !! r = Some out /\
    extract_biometrics_data sample_table = Ok out.
Proof.
  apply (biometrics_input_untouched {[0 := sample_table]} 0 sample_table).
  - reflexivity.
  - exact sample_table_full.
Defined.

End BiometricsTheory.

(** ** The table normaliser *)

Module NormalizeTheory.
Import PyStr Pandas Convert TableTheory SortTheory.

(** The label a key ends up under. *)
Definition rename (k : string) : string :=
  replace CHARACTERISTIC_PREFIX EmptyString k.

(** A value of the [type] column after the two prefix removals. *)
Definition strip_type (v : string) : string :=
  replace CATEGORY_PREFIX EmptyString (replace QUANTITY_PREFIX EmptyString v).

(** The cell a record contributes for key [k]. *)
Definition field (k : string) (r : dict) : cell :=
  if String.eqb k "type" then strip_type <$> Dict.get k r else Dict.get k r.

(** *** The union of the keys *)

Lemma add_key_elem cols k x : x ∈ add_key cols k <-> x ∈ cols \/ x = k.
Proof.
  unfold add_key. case_bool_decide as Hk.
  - split; [by left|]. intros [?| ->]; done.
  - rewrite elem_of_app, list_elem_of_singleton. done.
Qed.

Lemma add_key_NoDup cols k : NoDup cols -> NoDup (add_key cols k).
Proof.
  intros Hnd. unfold add_key. case_bool_decide as Hk; [done|].
  apply NoDup_app. split; [done|]. split; [|apply NoDup_singleton].
  intros x Hx ->%list_elem_of_singleton. done.
Qed.

Lemma fold_add_key_elem ks cols x :
  x ∈ fold_left add_key ks cols <-> x ∈ cols \/ x ∈ ks.
Proof.
  revert cols. induction ks as [|k ks IH]; intros cols; simpl.
  - rewrite elem_of_nil. tauto.
  - rewrite IH, add_key_elem, elem_of_cons. tauto.
Qed.

Lemma fold_add_key_NoDup ks cols :
  NoDup cols -> NoDup (fold_left add_key ks cols).
Proof.
  revert cols. induction ks as [|k ks IH]; intros cols H; simpl; [done|].
  by apply IH, add_key_NoDup.
Qed.

Lemma fold_union_elem records cols x :
  x ∈ fold_left (fun cols r => fold_left add_key (Dict.keys r) cols) records cols
  <-> x ∈ cols \/ exists r, r ∈ records /\ x ∈ Dict.keys r.
Proof.
  revert cols. induction records as [|r records IH]; intros cols; simpl.
  - split; [by left|]. intros [?|(r & Hr & _)]; [done|].
    by apply elem_of_nil in Hr.
  - rewrite IH, fold_add_key_elem. split.
    + intros [[?|?]|(r' & Hr' & Hx)]; [by left| |].
      * right. exists r. split; [left|done].
      * right. exists r'. split; [by right|done].
    + intros [?|(r' & Hr' & Hx)]; [by left; left|].
      apply elem_of_cons in Hr' as [->|Hr']; [by left; right|].
      right. by exists r'.
Qed.

(** The labels of the table built from the records are the union of the
    records' keys. *)
Lemma elem_of_union_keys records k :
  k ∈ union_keys records <-> exists r, r ∈ records /\ k ∈ Dict.keys r.
Proof.
  unfold union_keys. rewrite fold_union_elem, elem_of_nil. tauto.
Qed.

Lemma NoDup_union_keys records : NoDup (union_keys records).
Proof.
  unfold union_keys. generalize (NoDup_nil_2 (A:=string)).
  generalize (@nil string).
  induction records as [|r records IH]; intros cols H; simpl; [done|].
  by apply IH, fold_add_key_NoDup.
Qed.

Lemma get_None_keys k (d : dict) : Dict.get k d = None <-> k ∉ Dict.keys d.
Proof.
  induction d as [|[k' v] d IH]; simpl.
  - split; [intros _; apply not_elem_of_nil|done].
  - rewrite not_elem_of_cons.
    destruct (String.eqb_spec k k') as [->|Hne]; [|tauto].
    split; [done|]. intros [? _]. done.
Qed.

(** *** Cells by label *)

Lemma cell_of_map (g : string -> cell) labels c :
  c ∈ labels -> cell_of labels c (map g labels) = g c.
Proof.
  intros [i Hi]%index_of_Some. unfold cell_of, cell_at. rewrite Hi.
  apply index_of_lookup in Hi. by rewrite list_lookup_fmap, Hi.
Qed.

Lemma cell_of_absent labels c row : c ∉ labels -> cell_of labels c row = None.
Proof. intros H. unfold cell_of. by rewrite index_of_None. Qed.

Lemma str_replace_attr_Ok c old new df i :
  index_of c (columns df) = Some i ->
  str_replace_attr c old new df =
  Ok (mkDataFrame (columns df)
        (map (alter (fmap (replace old new)) i) (rows df))).
Proof. intros H. unfold str_replace_attr. by rewrite H. Qed.

Lemma str_replace_attr_Raise c old new df :
  c ∉ columns df -> str_replace_attr c old new df = Raise AttributeError.
Proof. intros H. unfold str_replace_attr. by rewrite index_of_None. Qed.

(** The row of a record once the [type] column has lost its prefixes. *)
Lemma type_row cols0 i (r : dict) :
  NoDup cols0 ->
  index_of "type" cols0 = Some i ->
  alter (fmap (replace CATEGORY_PREFIX EmptyString)) i
    (alter (fmap (replace QUANTITY_PREFIX EmptyString)) i
       (map (fun c => Dict.get c r) cols0)) =
  map (fun k => field k r) cols0.
Proof.
  intros Hnd Hi. apply index_of_lookup in Hi. apply list_eq. intros j.
  destruct (decide (i = j)) as [<-|Hne].
  - rewrite !list_lookup_alter_eq, !list_lookup_fmap, Hi. simpl.
    unfold field, strip_type. simpl. by destruct (Dict.get "type" r).
  - rewrite !list_lookup_alter_ne, !list_lookup_fmap by done.
    destruct (cols0 !! j) as [k|] eqn:Hj; simpl; [|done].
    unfold field. destruct (String.eqb_spec k "type") as [->|]; [|done].
    destruct Hne. by eapply NoDup_lookup.
Qed.

(** *** The labels after the reordering *)

Definition labels_of (so : SetOrder) (records : list dict) : list string :=
  let original_cols := map rename (union_keys records) in
  let shifted_cols := shifted_cols_of original_cols in
  shifted_cols ++ remaining_cols_of so original_cols shifted_cols.

(** The row of a record under the given labels. *)
Definition table_row (keys labels : list string) (r : dict) : list cell :=
  map (fun c => cell_of (map rename keys) c (map (fun k => field k r) keys))
      labels.

Lemma reshape_Ok so records :
  "type" ∈ union_keys records ->
  NoDup (map rename (union_keys records)) ->
  reshape so records =
  Ok (mkDataFrame (labels_of so records)
        (map (table_row (union_keys records) (labels_of so records)) records)).
Proof.
  intros Ht Hnd. pose proof (NoDup_fmap_1 _ _ Hnd) as Hnd0.
  destruct (index_of_Some _ _ Ht) as [i Hi].
  unfold reshape, from_records.
  rewrite (str_replace_attr_Ok _ _ _ _ i) by done. simpl.
  rewrite (str_replace_attr_Ok _ _ _ _ i) by done. simpl.
  unfold reindex, rename_columns. simpl.
  rewrite bool_decide_eq_true_2 by done.
  unfold labels_of. f_equal. f_equal.
  rewrite !map_map. apply map_ext. intros r.
  unfold table_row. by rewrite type_row.
Qed.

Lemma reshape_no_type so records :
  "type" ∉ union_keys records -> reshape so records = Raise AttributeError.
Proof.
  intros Ht. unfold reshape, from_records.
  by rewrite str_replace_attr_Raise.
Qed.

Lemma reshape_duplicate so records :
  "type" ∈ union_keys records ->
  ~ NoDup (map rename (union_keys records)) ->
  reshape so records = Raise ValueError.
Proof.
  intros Ht Hnd. destruct (index_of_Some _ _ Ht) as [i Hi].
  unfold reshape, from_records.
  rewrite (str_replace_attr_Ok _ _ _ _ i) by done. simpl.
  rewrite (str_replace_attr_Ok _ _ _ _ i) by done. simpl.
  unfold reindex, rename_columns. simpl.
  by rewrite bool_decide_eq_false_2.
Qed.

Lemma shifted_cols_eq original_cols :
  shifted_cols_of original_cols =
  priority_cols ++ filter (fun c => c ∈ original_cols) loop_cols.
Proof.
  unfold shifted_cols_of, append_if_in, loop_cols.
  rewrite !filter_cons, filter_nil.
  repeat case_bool_decide; repeat case_decide; done.
Qed.

Lemma NoDup_priority_loop : NoDup (priority_cols ++ loop_cols).
Proof. apply (bool_decide_unpack _). by vm_compute. Qed.

Lemma NoDup_shifted original_cols : NoDup (shifted_cols_of original_cols).
Proof.
  rewrite shifted_cols_eq.
  eapply sublist_NoDup; [apply NoDup_priority_loop|].
  apply sublist_app; [done|]. apply sublist_filter.
Qed.

Lemma remaining_perm so original_cols :
  NoDup original_cols ->
  remaining_cols_of so original_cols (shifted_cols_of original_cols)
  ≡ₚ list_difference original_cols (priority_cols ++ loop_cols).
Proof.
  intros Hnd. unfold remaining_cols_of.
  rewrite set_list_perm
    by (apply NoDup_list_difference, NoDup_remove_dups).
  apply NoDup_Permutation.
  - apply NoDup_list_difference, NoDup_remove_dups.
  - by apply NoDup_list_difference.
  - intros x. rewrite !list_elem_of_difference, elem_of_remove_dups.
    rewrite shifted_cols_eq, !elem_of_app, list_elem_of_filter. tauto.
Qed.

Lemma NoDup_labels so records :
  NoDup (map rename (union_keys records)) -> NoDup (labels_of so records).
Proof.
  intros Hnd. unfold labels_of. apply NoDup_app.
  split; [apply NoDup_shifted|]. split.
  - intros x Hx. unfold remaining_cols_of.
    rewrite set_list_perm
      by (apply NoDup_list_difference, NoDup_remove_dups).
    rewrite list_elem_of_difference. tauto.
  - rewrite remaining_perm by done. by apply NoDup_list_difference.
Qed.

Lemma elem_of_labels so records c :
  NoDup (map rename (union_keys records)) ->
  c ∈ labels_of so records <->
  c ∈ map rename (union_keys records) \/ c ∈ priority_cols.
Proof.
  intros Hnd. unfold labels_of.
  rewrite elem_of_app, remaining_perm by done.
  rewrite shifted_cols_eq, elem_of_app, list_elem_of_filter.
  rewrite list_elem_of_difference, elem_of_app.
  destruct (decide (c ∈ priority_cols)); destruct (decide (c ∈ loop_cols)); tauto.
Qed.

End NormalizeTheory.

(** ** Sorting a table by one label, newest first *)

Module SortValuesTheory.
Import PyStr Pandas Convert TableTheory SortTheory BiometricsTheory.

Lemma lookup_all {A} (d : A) (l : list A) :
  map (fun j => default d (l !! j)) (seq 0 (length l)) = l.
Proof.
  apply list_eq. intros i. rewrite list_lookup_fmap.
  destruct (decide (i < length l)) as [Hlt|Hge].
  - rewrite lookup_seq_lt by done. simpl.
    destruct (lookup_lt_is_Some_2 l i Hlt) as [x Hx]. by rewrite Hx.
  - rewrite lookup_seq_ge by lia. simpl. symmetry.
    apply lookup_ge_None. lia.
Qed.

Lemma cell_at_app_r (pre items : list cell) i :
  cell_at (pre ++ items) (length pre + i) = cell_at items i.
Proof. unfold cell_at. by rewrite lookup_app_r, Nat.add_comm, Nat.add_sub by lia. Qed.

(** The present cells, read through their indices. *)
Lemma present_cells_from (pre items : list cell) :
  map (cell_at (pre ++ items))
      (filter (fun i => is_Some (cell_at (pre ++ items) i))
              (seq (length pre) (length items))) =
  map Some (omap id items).
Proof.
  revert pre. induction items as [|x items IH]; intros pre; [done|].
  cbn [length seq].
  assert (cell_at (pre ++ x :: items) (length pre) = x) as Hx.
  { rewrite <- (Nat.add_0_r (length pre)). by rewrite cell_at_app_r. }
  specialize (IH (pre ++ [x])).
  rewrite <- app_assoc, length_app in IH. cbn [length app] in IH.
  rewrite Nat.add_1_r in IH.
  destruct x as [s|].
  - rewrite filter_cons_True by (by rewrite Hx). cbn [map omap].
    rewrite Hx. simpl. f_equal. exact IH.
  - rewrite filter_cons_False by (rewrite Hx; by intros [? ?]).
    exact IH.
Qed.

Lemma present_cells (items : list cell) :
  map (cell_at items)
      (filter (fun i => is_Some (cell_at items i)) (seq 0 (length items))) =
  map Some (omap id items).
Proof. apply (present_cells_from [] items). Qed.

Section Nargsort.
Context (qs : ArgSort) (items : list cell).

Let idx := seq 0 (length items).
Let non_nan_idx := filter (fun i => is_Some (cell_at items i)) idx.
Let nan_idx := filter (fun i => cell_at items i = None) idx.
Let non_nans := omap id items.
Let indexer :=
  map (fun j => default 0 (reverse non_nan_idx !! j))
      (argsort qs (reverse non_nans)).

(** The present values in ascending order, as [argsort] leaves them. *)
Definition ascending_values : list string :=
  map (fun j => default EmptyString (reverse (omap id items) !! j))
      (argsort qs (reverse (omap id items))).

Lemma nargsort_desc_eq :
  nargsort_desc qs items = reverse indexer ++ nan_idx.
Proof. done. Qed.

Lemma non_nan_length : length non_nan_idx = length non_nans.
Proof.
  pose proof (f_equal length (present_cells items)) as H.
  by rewrite !length_fmap in H.
Qed.

Lemma indexer_perm : indexer ≡ₚ non_nan_idx.
Proof.
  unfold indexer. rewrite argsort_perm.
  rewrite length_reverse, <- non_nan_length, <- (length_reverse non_nan_idx).
  rewrite lookup_all. apply reverse_Permutation.
Qed.

Lemma nargsort_desc_perm : nargsort_desc qs items ≡ₚ seq 0 (length items).
Proof.
  rewrite nargsort_desc_eq, reverse_Permutation, indexer_perm.
  etransitivity;
    [|apply (filter_app_complement (fun i => is_Some (cell_at items i)) idx)].
  unfold non_nan_idx, nan_idx. f_equiv.
  erewrite list_filter_iff; [done|].
  intros i. apply eq_None_not_Some.
Qed.

Lemma indexer_cells : map (cell_at items) indexer = map Some ascending_values.
Proof.
  unfold indexer, ascending_values. rewrite !map_map.
  apply Forall_fmap_ext_1.
  assert (Forall (fun j => j < length (reverse non_nans))
            (argsort qs (reverse non_nans))) as Hlt.
  { rewrite argsort_perm. apply Forall_forall. intros j Hj.
    apply list_elem_of_lookup in Hj as [k Hk].
    apply lookup_seq in Hk. lia. }
  eapply Forall_impl; [exact Hlt|]. intros j Hj. simpl.
  pose proof (present_cells items) as Hp.
  apply (f_equal reverse) in Hp. rewrite <- !fmap_reverse in Hp.
  apply (f_equal (fun l => l !! j)) in Hp.
  rewrite !list_lookup_fmap in Hp. fold idx non_nan_idx non_nans in Hp.
  destruct (lookup_lt_is_Some_2 _ _ Hj) as [s Hs].
  fold non_nans. rewrite Hs in Hp |- *. simpl in *.
  destruct (reverse non_nan_idx !! j) as [i|]; simpl in *; [|done].
  by injection Hp.
Qed.

Lemma nan_cells : map (cell_at items) nan_idx = replicate (length nan_idx) None.
Proof.
  assert (Forall (fun i => cell_at items i = None) nan_idx) as H.
  { apply Forall_forall. intros ? [? _]%list_elem_of_filter. done. }
  induction H as [|j l Hj _ IH]; simpl; [done|].
  by rewrite Hj, IH.
Qed.

(** The cells in the order of the indexer: the present values in
    descending order, then the missing ones. *)
Lemma nargsort_desc_cells :
  map (cell_at items) (nargsort_desc qs items) =
  map Some (reverse ascending_values) ++ replicate (length nan_idx) None.
Proof.
  rewrite nargsort_desc_eq, map_app.
  rewrite (fmap_reverse (cell_at items)).
  change (cell_at items <$> indexer) with (map (cell_at items) indexer).
  rewrite indexer_cells, nan_cells.
  by rewrite (fmap_reverse Some).
Qed.

Lemma ascending_values_sorted : Sorted str_le ascending_values.
Proof. apply argsort_sorted. Qed.

(** The indexer splits into the rows with a value and, after them, the
    rows without, the latter in their original order. *)
Lemma nargsort_desc_split :
  exists present,
    nargsort_desc qs items =
    present ++ filter (fun i => cell_at items i = None) (seq 0 (length items)) /\
    Forall (fun i => is_Some (cell_at items i)) present.
Proof.
  exists (reverse indexer). split; [done|].
  rewrite reverse_Permutation, indexer_perm.
  apply Forall_forall. by intros i [? _]%list_elem_of_filter.
Qed.

End Nargsort.

#[export] Instance str_le_trans : Transitive str_le.
Proof. intros x y z. apply StrOrder.leb_trans. Qed.

#[export] Instance cell_le_trans a : Transitive (cell_le a).
Proof. intros x y z. apply cell_leb_trans. Qed.

Lemma StronglySorted_replicate_None a n :
  StronglySorted (cell_le a) (replicate n None).
Proof.
  induction n as [|n IH]; simpl; constructor; [done|].
  apply Forall_forall. intros x [-> _]%elem_of_replicate. by destruct a.
Qed.

Lemma nargsort_desc_sorted qs items :
  StronglySorted (cell_le false) (map (cell_at items) (nargsort_desc qs items)).
Proof.
  rewrite nargsort_desc_cells. apply StronglySorted_app. split; [|split].
  - intros x y _ [-> _]%elem_of_replicate. unfold cell_le. by destruct x.
  - apply Sorted_StronglySorted; [apply _|].
    apply (Sorted_fmap Some (flip str_le)); [done|].
    apply Sorted_reverse, ascending_values_sorted.
  - apply StronglySorted_replicate_None.
Qed.

Lemma filter_map {A B} (f : A -> B) (P : B -> Prop)
    `{!forall y, Decision (P y)} (l : list A) :
  filter P (map f l) = map f (filter (fun x => P (f x)) l).
Proof.
  induction l as [|x l IH]; simpl; [done|].
  rewrite !filter_cons. destruct (decide (P (f x))); simpl; by rewrite IH.
Qed.

Lemma filter_map_filter {A B} (f : A -> B) (P : B -> Prop) (Q : A -> Prop)
    `{!forall y, Decision (P y)} `{!forall x, Decision (Q x)} (l : list A) :
  (forall x, Q x <-> P (f x)) ->
  filter P (map f (filter Q l)) = filter P (map f l).
Proof.
  intros HQ. induction l as [|x l IH]; [done|].
  rewrite filter_cons. destruct (decide (Q x)) as [q|nq]; simpl.
  - rewrite !filter_cons. by rewrite IH.
  - rewrite filter_cons, decide_False by (by rewrite <- HQ). done.
Qed.

Lemma StronglySorted_map {A B} (f : A -> B) (R : relation B) (l : list A) :
  StronglySorted R (map f l) -> StronglySorted (fun x y => R (f x) (f y)) l.
Proof.
  induction l as [|x l IH]; simpl; [constructor|].
  intros [Hx Hl]%StronglySorted_cons. constructor; [by apply IH|].
  apply Forall_forall. intros y Hy. rewrite Forall_forall in Hx.
  apply Hx. change (f y ∈ f <$> l). by apply list_elem_of_fmap_2.
Qed.

Section SortByLabel.
Context (qs : ArgSort) (c : string) (t : DataFrame).
Hypothesis c_present : c ∈ columns t.

Let key (r : list cell) : cell := cell_of (columns t) c r.
Let items := map key (rows t).
Let row_at (i : nat) : list cell := default [] (rows t !! i).

Lemma sort_values_desc_eq :
  sort_values_desc qs c t =
  Ok (mkDataFrame (columns t) (map row_at (nargsort_desc qs items))).
Proof.
  unfold sort_values_desc. rewrite column_Ok by done. done.
Qed.

Lemma key_row_at i : key (row_at i) = cell_at items i.
Proof.
  unfold row_at, items, cell_at. rewrite list_lookup_fmap.
  destruct (rows t !! i) as [r|]; simpl; [done|].
  unfold key, cell_of, cell_at. by destruct (index_of c (columns t)).
Qed.

Lemma sorted_rows_perm : map row_at (nargsort_desc qs items) ≡ₚ rows t.
Proof.
  rewrite nargsort_desc_perm. unfold items. rewrite length_fmap.
  unfold row_at. by rewrite lookup_all.
Qed.

Lemma sorted_rows_descending :
  StronglySorted (fun r1 r2 => cell_le false (key r1) (key r2))
    (map row_at (nargsort_desc qs items)).
Proof.
  apply StronglySorted_map. rewrite map_map.
  erewrite map_ext; [apply nargsort_desc_sorted|]. apply key_row_at.
Qed.

Lemma sorted_rows_missing_last :
  filter (fun r => key r = None) (map row_at (nargsort_desc qs items)) =
  filter (fun r => key r = None) (rows t).
Proof.
  destruct (nargsort_desc_split qs items) as (present & -> & Hp).
  rewrite map_app, filter_app.
  rewrite (filter_none _ (map row_at present)).
  - simpl. rewrite filter_map_filter by (intros i; by rewrite key_row_at).
    unfold items. rewrite length_fmap. unfold row_at. by rewrite lookup_all.
  - intros r [i [-> Hi]]%list_elem_of_fmap.
    rewrite key_row_at. rewrite Forall_forall in Hp.
    destruct (Hp i Hi) as [s ->]. done.
Qed.

End SortByLabel.

End SortValuesTheory.

(** ** The normalised table *)

Module NormalizeClaims.
Import PyStr Pandas Convert TableTheory SortTheory BiometricsTheory.
Import NormalizeTheory SortValuesTheory Instances.

Definition start_of (df : DataFrame) (r : list cell) : cell :=
  cell_of (columns df) "startDate" r.

Lemma priority_in_labels so records c :
  c ∈ priority_cols -> c ∈ labels_of so records.
Proof.
  intros Hc. unfold labels_of. rewrite shifted_cols_eq, !elem_of_app. auto.
Qed.

Lemma startDate_priority : "startDate" ∈ priority_cols.
Proof. apply (bool_decide_unpack _). by vm_compute. Qed.

Lemma reshape_inv so records t :
  reshape so records = Ok t ->
  "type" ∈ union_keys records /\ NoDup (map rename (union_keys records)).
Proof.
  intros H.
  destruct (decide ("type" ∈ union_keys records)) as [Ht|Ht];
    [|by rewrite reshape_no_type in H].
  destruct (decide (NoDup (map rename (union_keys records)))) as [Hn|Hn];
    [done|by rewrite reshape_duplicate in H].
Qed.

Lemma normalize_Ok so qs records :
  "type" ∈ union_keys records ->
  NoDup (map rename (union_keys records)) ->
  exists t df,
    reshape so records = Ok t /\
    normalize so qs records = Ok df /\
    columns t = labels_of so records /\
    rows t = map (table_row (union_keys records) (labels_of so records)) records /\
    columns df = columns t /\
    rows df =
      map (fun i => default [] (rows t !! i))
          (nargsort_desc qs (map (start_of t) (rows t))).
Proof.
  intros Ht Hnd. eexists _, _. split; [by apply reshape_Ok|].
  unfold normalize. rewrite reshape_Ok by done. simpl.
  rewrite sort_values_desc_eq
    by (simpl; apply priority_in_labels, startDate_priority).
  done.
Qed.

(** Every table the normalisation returns has the labels the biometrics
    filter relies on, each once. *)
Lemma normalize_full_table so qs records df :
  normalize so qs records = Ok df -> full_table df.
Proof.
  intros Hn.
  assert ("type" ∈ union_keys records /\
          NoDup (map rename (union_keys records))) as [Ht Hnd].
  { unfold normalize in Hn.
    destruct (reshape so records) as [t|e] eqn:Hr; [|done].
    by eapply reshape_inv. }
  destruct (normalize_Ok so qs records Ht Hnd)
    as (t & df' & _ & Hn' & Hc & _ & Hcd & _).
  assert (df' = df) as -> by congruence.
  unfold full_table. rewrite Hcd, Hc.
  split; [by apply NoDup_labels|].
  repeat split; apply priority_in_labels, (bool_decide_unpack _); by vm_compute.
Qed.

(** A key's cell is found under the key's new label. *)
Lemma cell_of_renamed (g : string -> cell) keys k :
  NoDup (map rename keys) -> k ∈ keys ->
  cell_of (map rename keys) (rename k) (map g keys) = g k.
Proof.
  intros Hnd Hk.
  assert (rename k ∈ map rename keys) as Hin.
  { change (rename k ∈ rename <$> keys). by apply list_elem_of_fmap_2. }
  destruct (index_of_Some _ _ Hin) as [i Hi].
  unfold cell_of, cell_at. rewrite Hi. apply index_of_lookup in Hi.
  apply list_elem_of_lookup in Hk as [j Hj].
  assert (map rename keys !! j = Some (rename k)) as Hj'.
  { change ((rename <$> keys) !! j = Some (rename k)).
    by rewrite list_lookup_fmap, Hj. }
  rewrite (NoDup_lookup _ _ _ _ Hnd Hi Hj').
  change (map g keys !! j) with ((g <$> keys) !! j).
  by rewrite list_lookup_fmap, Hj.
Qed.

Lemma table_row_cells so records (r : dict) :
  NoDup (map rename (union_keys records)) ->
  (forall k, k ∈ union_keys records ->
     cell_of (labels_of so records) (rename k)
       (table_row (union_keys records) (labels_of so records) r) = field k r) /\
  (forall c, c ∉ map rename (union_keys records) ->
     cell_of (labels_of so records) c
       (table_row (union_keys records) (labels_of so records) r) = None).
Proof.
  intros Hnd. split.
  - intros k Hk. unfold table_row. rewrite cell_of_map.
    + by apply cell_of_renamed.
    + apply elem_of_labels; [done|]. left.
      change (rename k ∈ rename <$> union_keys records).
      by apply list_elem_of_fmap_2.
  - intros c Hc. unfold table_row.
    destruct (decide (c ∈ labels_of so records)) as [Hin|Hin].
    + rewrite cell_of_map by done. by apply cell_of_absent.
    + by apply cell_of_absent.
Qed.

Lemma nargsort_all_missing qs (items : list cell) :
  Forall (fun c => c = None) items ->
  nargsort_desc qs items = seq 0 (length items).
Proof.
  intros Hall. unfold nargsort_desc.
  assert (omap id items = []) as ->.
  { induction Hall as [|c l -> _ IH]; [done|]. exact IH. }
  rewrite reverse_nil.
  assert (argsort qs [] = []) as ->.
  { apply Permutation_nil_r. apply (argsort_perm qs []). }
  simpl.
  apply filter_all. intros i Hi.
  unfold cell_at. destruct (items !! i) as [c|] eqn:Hc; [|done].
  rewrite Forall_forall in Hall. apply Hall.
  by eapply list_elem_of_lookup_2.
Qed.

(** Records that carry [type] but no [startDate]. *)
Definition undated_records : list dict :=
  [[("type", "HKQuantityTypeIdentifierStepCount"); ("value", "10")];
   [("type", "StepCount"); ("value", "5")]].

(** C3, as stated, fails: with [startDate] absent from every record the
    normalisation raises nothing and returns the sorted table. *)
Lemma undated_records_normalize :
  Forall (fun r => Dict.get "startDate" r = None) undated_records /\
  normalize forward_order stable_argsort undated_records =
  Ok (mkDataFrame
        ["type"; "sourceName"; "value"; "unit"; "startDate"; "endDate";
         "creationDate"]
        [[Some "StepCount"; None; Some "10"; None; None; None; None];
         [Some "StepCount"; None; Some "5"; None; None; None; None]]).
Proof. split; [by repeat constructor|by vm_compute]. Qed.

(** C3, amended.  When no label of the table is [startDate], so that in
    particular no record has the field, the normalisation does not fail:
    provided some record has [type] and no two labels coincide once the
    prefix is removed, the reordering adds a [startDate] column of missing
    values and the sort returns the rows in record order. *)
Theorem normalize_without_startDate so qs records :
  "type" ∈ union_keys records ->
  NoDup (map rename (union_keys records)) ->
  "startDate" ∉ map rename (union_keys records) ->
  exists t df,
    (forall r, r ∈ records -> Dict.get "startDate" r = None) /\
    reshape so records = Ok t /\
    normalize so qs records = Ok df /\
    "startDate" ∈ columns df /\
    Forall (fun row => start_of df row = None) (rows df) /\
    rows df = rows t.
Proof.
  intros Ht Hnd Hs.
  destruct (normalize_Ok so qs records Ht Hnd)
    as (t & df & Hr & Hn & Hc & Hrows & Hcd & Hrd).
  exists t, df.
  assert (Forall (fun row => start_of t row = None) (rows t)) as Hnone.
  { rewrite Hrows. apply Forall_forall. intros row [r [-> _]]%list_elem_of_fmap.
    unfold start_of. rewrite Hc. by apply table_row_cells. }
  assert (rows df = rows t) as Heq.
  { rewrite Hrd, nargsort_all_missing, length_fmap, lookup_all; [done|].
    apply Forall_forall. intros c [row [-> Hrow]]%list_elem_of_fmap.
    rewrite Forall_forall in Hnone. by apply Hnone. }
  split.
  { intros r Hr'. apply get_None_keys. intros Hk. apply Hs.
    change ("startDate" ∈ rename <$> union_keys records).
    apply (list_elem_of_fmap_2' rename _ "startDate" "startDate"); [|done].
    apply elem_of_union_keys. eauto. }
  split; [done|]. split; [done|]. split.
  { rewrite Hcd, Hc. apply priority_in_labels, startDate_priority. }
  split; [|done]. rewrite Heq. unfold start_of. by rewrite Hcd.
Qed.

Lemma normalize_without_startDate_witness :
  exists t df,
    (forall r, r ∈ undated_records -> Dict.get "startDate" r = None) /\
    reshape forward_order undated_records = Ok t /\
    normalize forward_order stable_argsort undated_records = Ok df /\
    "startDate" ∈ columns df /\
    Forall (fun row => start_of df row = None) (rows df) /\
    rows df = rows t.
Proof.
  apply (normalize_without_startDate forward_order stable_argsort undated_records);
    apply (bool_decide_unpack _); vm_compute; exact I.
Defined.

(** One record with [type] and a characteristic. *)
Definition blood_type_records : list dict :=
  [[("type", "HKQuantityTypeIdentifierHeartRate");
    ("HKCharacteristicTypeIdentifierBloodType", "HKBloodTypeOPositive")]].

(** C4, as stated, fails: the columns are not the union of the keys.  The
    six priority labels that no record has are columns all the same, and
    the key with the characteristic prefix is not a column: its label has
    lost the prefix. *)
Lemma blood_type_columns :
  union_keys blood_type_records =
    ["type"; "HKCharacteristicTypeIdentifierBloodType"] /\
  normalize forward_order stable_argsort blood_type_records =
  Ok (mkDataFrame
        ["type"; "sourceName"; "value"; "unit"; "startDate"; "endDate";
         "creationDate"; "BloodType"]
        [[Some "HeartRate"; None; None; None; None; None; None;
          Some "HKBloodTypeOPositive"]]).
Proof. split; by vm_compute. Qed.

(** C4, amended.  Provided some record has [type] and no two labels
    coincide once the characteristic prefix is removed, the columns of the
    normalised table are: the seven priority labels, always; then each of
    the three conditional labels that occurs among the renamed keys; then
    every other renamed key, once, in the order in which the set of
    remaining labels is listed.  So the column set is the union of the
    renamed keys with the seven priority labels.  The row of a record holds
    the record's value under each of its keys' labels ([type] without its
    prefixes) and a missing value under every other label. *)
Theorem normalized_columns so qs records :
  "type" ∈ union_keys records ->
  NoDup (map rename (union_keys records)) ->
  exists df remaining rows0,
    normalize so qs records = Ok df /\
    columns df =
      priority_cols
      ++ filter (fun c => c ∈ map rename (union_keys records)) loop_cols
      ++ remaining /\
    remaining ≡ₚ
      list_difference (map rename (union_keys records))
                      (priority_cols ++ loop_cols) /\
    NoDup (columns df) /\
    (forall c, c ∈ columns df <->
               c ∈ map rename (union_keys records) \/ c ∈ priority_cols) /\
    rows df ≡ₚ rows0 /\
    Forall2
      (fun r row =>
         (forall k, k ∈ union_keys records ->
                    cell_of (columns df) (rename k) row = field k r) /\
         (forall c, c ∉ map rename (union_keys records) ->
                    cell_of (columns df) c row = None))
      records rows0.
Proof.
  intros Ht Hnd.
  destruct (normalize_Ok so qs records Ht Hnd)
    as (t & df & Hr & Hn & Hc & Hrows & Hcd & Hrd).
  exists df,
    (remaining_cols_of so (map rename (union_keys records))
       (shifted_cols_of (map rename (union_keys records)))),
    (rows t).
  rewrite Hcd, Hc.
  split; [done|]. split.
  { unfold labels_of. by rewrite shifted_cols_eq, <- app_assoc. }
  split; [apply remaining_perm, Hnd|].
  split; [by apply NoDup_labels|].
  split; [intros c; by apply elem_of_labels|].
  split.
  { rewrite Hrd. apply sorted_rows_perm. }
  rewrite Hrows. apply Forall2_fmap_r, Forall_Forall2_diag, Forall_forall.
  intros r _. by apply table_row_cells.
Qed.

Lemma normalized_columns_witness :
  exists df remaining rows0,
    normalize forward_order stable_argsort blood_type_records = Ok df /\
    columns df =
      priority_cols
      ++ filter (fun c => c ∈ map rename (union_keys blood_type_records)) loop_cols
      ++ remaining /\
    remaining ≡ₚ
      list_difference (map rename (union_keys blood_type_records))
                      (priority_cols ++ loop_cols) /\
    NoDup (columns df) /\
    (forall c, c ∈ columns df <->
               c ∈ map rename (union_keys blood_type_records) \/
               c ∈ priority_cols) /\
    rows df ≡ₚ rows0 /\
    Forall2
      (fun r row =>
         (forall k, k ∈ union_keys blood_type_records ->
                    cell_of (columns df) (rename k) row = field k r) /\
         (forall c, c ∉ map rename (union_keys blood_type_records) ->
                    cell_of (columns df) c row = None))
      blood_type_records rows0.
Proof.
  apply (normalized_columns forward_order stable_argsort blood_type_records);
    apply (bool_decide_unpack _); vm_compute; exact I.
Defined.

(** Eighteen records with the same [startDate], told apart by their
    values. *)
Definition tied_values : list string :=
  ["a"; "b"; "c"; "d"; "e"; "f"; "g"; "h"; "i";
   "j"; "k"; "l"; "m"; "n"; "o"; "p"; "q"; "r"].

Definition tied_records : list dict :=
  map (fun x => [("type", "StepCount"); ("value", x);
                 ("startDate", "2024-01-02")])
      tied_values.

(** C6, as stated, fails: the program leaves the sort kind at its default,
    quicksort, which is not stable.  A short array numpy sorts by
    insertion, which keeps equal entries in order; an array of eighteen it
    partitions, the partition exchanges entries that compare equal, and of
    eighteen rows with the same [startDate] the third to the seventeenth
    come out in the reverse of their record order. *)
Lemma tied_rows_reordered :
  Forall (fun r => Dict.get "startDate" r = Some "2024-01-02") tied_records /\
  map (Dict.get "value") tied_records = map Some tied_values /\
  argsort numpy_argsort (replicate 18 "2024-01-02") =
    Numpy.aquicksort (replicate 18 "2024-01-02") /\
  Numpy.aquicksort (replicate 18 "2024-01-02") =
    [0; 15; 14; 13; 12; 11; 10; 9; 8; 7; 6; 5; 4; 3; 2; 1; 16; 17] /\
  exists df,
    normalize forward_order numpy_argsort tied_records = Ok df /\
    column df "startDate" = Ok (replicate 18 (Some "2024-01-02")) /\
    column df "value" =
      Ok (map Some ["a"; "b"; "q"; "p"; "o"; "n"; "m"; "l"; "k";
                    "j"; "i"; "h"; "g"; "f"; "e"; "d"; "c"; "r"]).
Proof.
  split; [by repeat constructor|].
  split; [reflexivity|].
  split; [by vm_compute|].
  split; [by vm_compute|].
  eexists. split; [vm_compute; reflexivity|].
  split; by vm_compute.
Qed.

(** C6, amended.  The rows of the normalised table are the rows of the
    records, one each, in descending order of [startDate] compared as
    strings, the rows without a [startDate] last and in record order.  The
    order among rows with the same [startDate] is the sort algorithm's
    own. *)
Theorem rows_newest_first so qs records t :
  reshape so records = Ok t ->
  exists df,
    normalize so qs records = Ok df /\
    columns df = columns t /\
    rows t = map (table_row (union_keys records) (columns t)) records /\
    rows df ≡ₚ rows t /\
    StronglySorted
      (fun r1 r2 => cell_le false (start_of t r1) (start_of t r2)) (rows df) /\
    filter (fun r => start_of t r = None) (rows df) =
    filter (fun r => start_of t r = None) (rows t).
Proof.
  intros Hr. destruct (reshape_inv _ _ _ Hr) as [Ht Hnd].
  destruct (normalize_Ok so qs records Ht Hnd)
    as (t' & df & Hr' & Hn & Hc & Hrows & Hcd & Hrd).
  assert (t' = t) as -> by congruence.
  assert ("startDate" ∈ columns t) as Hs.
  { rewrite Hc. apply priority_in_labels, startDate_priority. }
  exists df. split; [done|]. split; [done|].
  split; [by rewrite Hc|]. rewrite Hrd.
  split; [by apply sorted_rows_perm|].
  split; [by apply sorted_rows_descending|by apply sorted_rows_missing_last].
Qed.

Lemma rows_newest_first_witness :
  exists df,
    normalize forward_order numpy_argsort tied_records = Ok df /\
    columns df = priority_cols /\
    rows (mkDataFrame priority_cols
            (map (table_row (union_keys tied_records) priority_cols) tied_records)) =
      map (table_row (union_keys tied_records) priority_cols) tied_records /\
    rows df ≡ₚ map (table_row (union_keys tied_records) priority_cols) tied_records /\
    StronglySorted
      (fun r1 r2 =>
         cell_le false (cell_of priority_cols "startDate" r1)
                       (cell_of priority_cols "startDate" r2)) (rows df) /\
    filter (fun r => cell_of priority_cols "startDate" r = None) (rows df) =
    filter (fun r => cell_of priority_cols "startDate" r = None)
      (map (table_row (union_keys tied_records) priority_cols) tied_records).
Proof.
  apply (rows_newest_first forward_order numpy_argsort tied_records
           (mkDataFrame priority_cols
              (map (table_row (union_keys tied_records) priority_cols)
                   tied_records))).
  reflexivity.
Defined.

End NormalizeClaims.

(** ** Running the program twice *)

Module RerunTheory.
Import PyStr Pandas Convert TableTheory SortTheory BiometricsTheory.
Import NormalizeTheory SortValuesTheory NormalizeClaims Instances.

Definition FULL_CSV (today : string) : string :=
  csv_name today "apple_health_export".
Definition BIO_CSV (today : string) : string :=
  csv_name today "biometrics_export".

(** The files after a run that went through. *)
Definition files_after (today : string) (fs : files)
    (temp full bio : string) : files :=
  delete TEMP_FILE
    (<[BIO_CSV today := bio]>
       (<[FULL_CSV today := full]> (<[TEMP_FILE := temp]> fs))).

Lemma names_distinct today :
  "export.xml" <> TEMP_FILE /\ "export.xml" <> FULL_CSV today /\
  "export.xml" <> BIO_CSV today /\ TEMP_FILE <> FULL_CSV today /\
  TEMP_FILE <> BIO_CSV today /\ FULL_CSV today <> BIO_CSV today.
Proof. repeat split; discriminate. Qed.

Section Run.
Context (reader : TextReader) (parse : string -> option Extract.xml)
        (so : SetOrder) (qs : ArgSort) (today : string).

(** The first step of [main] on an input that is there. *)
Lemma preprocess_export fs content :
  fs !! "export.xml" = Some content ->
  preprocess_to_temp_file reader "export.xml" fs =
  if utf8_valid content then
    (<[TEMP_FILE := Preprocess.preprocess_text content]> fs, Ok TEMP_FILE)
  else
    (<[TEMP_FILE :=
         String.concat EmptyString
           (Preprocess.preprocess_lines (lines_read reader content))]> fs,
     Raise UnicodeDecodeError).
Proof. intros Hc. unfold preprocess_to_temp_file. by rewrite Hc. Qed.

Lemma main_Ok fs content doc df bio :
  fs !! "export.xml" = Some content ->
  utf8_valid content = true ->
  parse (Preprocess.preprocess_text content) = Some doc ->
  xml_to_csv so qs doc = Ok df ->
  extract_biometrics_data df = Ok bio ->
  main reader parse so qs today fs =
  (files_after today fs (Preprocess.preprocess_text content)
     (to_csv df) (to_csv bio), Ok tt).
Proof.
  intros Hc Hu Hp Hx Hb.
  unfold main, io_bind. rewrite (preprocess_export fs content Hc), Hu.
  unfold xml_to_csv_file, save_to_csv, lift, remove_temp_file.
  rewrite lookup_insert_eq, Hp, Hx, Hb.
  destruct (names_distinct today) as (_ & _ & _ & H1 & H2 & _).
  rewrite lookup_insert_ne by (fold (BIO_CSV today); congruence).
  rewrite lookup_insert_ne by (fold (FULL_CSV today); congruence).
  by rewrite lookup_insert_eq.
Qed.

Lemma main_Ok_inv fs fs1 :
  main reader parse so qs today fs = (fs1, Ok tt) ->
  exists content doc df bio,
    fs !! "export.xml" = Some content /\
    utf8_valid content = true /\
    parse (Preprocess.preprocess_text content) = Some doc /\
    xml_to_csv so qs doc = Ok df /\
    extract_biometrics_data df = Ok bio /\
    fs1 = files_after today fs (Preprocess.preprocess_text content)
            (to_csv df) (to_csv bio).
Proof.
  intros Hm.
  destruct (fs !! "export.xml") as [content|] eqn:Hc.
  2:{ unfold main, io_bind, preprocess_to_temp_file in Hm.
      rewrite Hc in Hm. discriminate. }
  destruct (utf8_valid content) eqn:Hu.
  2:{ unfold main, io_bind in Hm.
      rewrite (preprocess_export fs content Hc), Hu in Hm. discriminate. }
  destruct (parse (Preprocess.preprocess_text content)) as [doc|] eqn:Hp.
  2:{ unfold main, io_bind in Hm.
      rewrite (preprocess_export fs content Hc), Hu in Hm.
      unfold xml_to_csv_file in Hm.
      rewrite lookup_insert_eq, Hp in Hm. discriminate. }
  destruct (xml_to_csv so qs doc) as [df|e] eqn:Hx.
  2:{ unfold main, io_bind in Hm.
      rewrite (preprocess_export fs content Hc), Hu in Hm.
      unfold xml_to_csv_file in Hm.
      rewrite lookup_insert_eq, Hp, Hx in Hm. discriminate. }
  destruct (extract_biometrics_data df) as [bio|e] eqn:Hb.
  2:{ unfold main, io_bind in Hm.
      rewrite (preprocess_export fs content Hc), Hu in Hm.
      unfold xml_to_csv_file, save_to_csv, lift in Hm.
      rewrite lookup_insert_eq, Hp, Hx, Hb in Hm. discriminate. }
  exists content, doc, df, bio. repeat (split; [done|]).
  rewrite (main_Ok fs content doc df bio) in Hm by done. congruence.
Qed.

Lemma files_after_again fs temp full bio :
  files_after today (files_after today fs temp full bio) temp full bio =
  files_after today fs temp full bio.
Proof.
  destruct (names_distinct today) as (_ & _ & _ & H1 & H2 & H3).
  unfold files_after. apply map_eq. intros k.
  destruct (decide (k = TEMP_FILE)) as [->|Hk1].
  { by rewrite !lookup_delete_eq. }
  rewrite !(lookup_delete_ne _ TEMP_FILE k) by done.
  destruct (decide (k = BIO_CSV today)) as [->|Hk2].
  { by rewrite !lookup_insert_eq. }
  rewrite !(lookup_insert_ne _ (BIO_CSV today) k) by done.
  destruct (decide (k = FULL_CSV today)) as [->|Hk3].
  { by rewrite !lookup_insert_eq. }
  rewrite !(lookup_insert_ne _ (FULL_CSV today) k) by done.
  rewrite !(lookup_insert_ne _ TEMP_FILE k) by done.
  rewrite !(lookup_delete_ne _ TEMP_FILE k) by done.
  rewrite !(lookup_insert_ne _ (BIO_CSV today) k) by done.
  rewrite !(lookup_insert_ne _ (FULL_CSV today) k) by done.
  by rewrite !(lookup_insert_ne _ TEMP_FILE k) by done.
Qed.

Lemma files_after_input fs temp full bio :
  files_after today fs temp full bio !! "export.xml" = fs !! "export.xml".
Proof.
  destruct (names_distinct today) as (H1 & H2 & H3 & _).
  unfold files_after.
  rewrite lookup_delete_ne by done.
  by rewrite !lookup_insert_ne by done.
Qed.

(** A second run under the same set order leaves every file as the first
    run left it. *)
Lemma main_again fs fs1 :
  main reader parse so qs today fs = (fs1, Ok tt) ->
  main reader parse so qs today fs1 = (fs1, Ok tt).
Proof.
  intros (content & doc & df & bio & Hc & Hu & Hp & Hx & Hb & ->)%main_Ok_inv.
  rewrite (main_Ok _ content doc df bio); try done.
  - by rewrite files_after_again.
  - by rewrite files_after_input.
Qed.

Lemma files_after_full fs temp full bio :
  files_after today fs temp full bio !! FULL_CSV today = Some full.
Proof.
  destruct (names_distinct today) as (_ & _ & _ & H1 & _ & H3).
  unfold files_after.
  rewrite lookup_delete_ne by done.
  rewrite lookup_insert_ne by done.
  apply lookup_insert_eq.
Qed.

End Run.

(** *** Two set orders *)

(** The columns [xml_to_csv] puts first for the records: the seven fixed
    labels and those of the three metadata labels that occur.  They do
    not depend on the set order. *)
Definition leading_cols (records : list dict) : list string :=
  shifted_cols_of (map rename (union_keys records)).

(** The columns that follow, in the order in which the set of them is
    listed. *)
Definition remaining_cols (so : SetOrder) (records : list dict) : list string :=
  remaining_cols_of so (map rename (union_keys records)) (leading_cols records).

Section TwoOrders.
Context (so1 so2 : SetOrder) (qs : ArgSort) (records : list dict).
Hypothesis has_type : "type" ∈ union_keys records.
Hypothesis no_clash : NoDup (map rename (union_keys records)).

Let cell_for (r : dict) (c : string) : cell :=
  cell_of (map rename (union_keys records)) c
          (map (fun k => field k r) (union_keys records)).

Lemma labels_same_elements c :
  c ∈ labels_of so1 records <-> c ∈ labels_of so2 records.
Proof. by rewrite !elem_of_labels. Qed.

Lemma table_row_cell so c (r : dict) :
  cell_of (labels_of so records) c
    (table_row (union_keys records) (labels_of so records) r) =
  if decide (c ∈ labels_of so records) then cell_for r c else None.
Proof.
  unfold table_row. case_decide as Hc.
  - by rewrite cell_of_map.
  - by apply cell_of_absent.
Qed.

Lemma start_items so :
  map (cell_of (labels_of so records) "startDate")
      (map (table_row (union_keys records) (labels_of so records)) records) =
  map (fun r => cell_for r "startDate") records.
Proof.
  rewrite map_map. apply map_ext. intros r.
  rewrite table_row_cell, decide_True; [done|].
  apply priority_in_labels, startDate_priority.
Qed.

Lemma two_orders_tables :
  exists df1 df2,
    normalize so1 qs records = Ok df1 /\
    normalize so2 qs records = Ok df2 /\
    columns df1 = leading_cols records ++ remaining_cols so1 records /\
    columns df2 = leading_cols records ++ remaining_cols so2 records /\
    remaining_cols so1 records ≡ₚ remaining_cols so2 records /\
    length (rows df1) = length (rows df2) /\
    (forall i c,
       cell_of (columns df1) c (default [] (rows df1 !! i)) =
       cell_of (columns df2) c (default [] (rows df2 !! i))).
Proof.
  destruct (normalize_Ok so1 qs records has_type no_clash)
    as (t1 & df1 & _ & Hn1 & Hc1 & Hrows1 & Hcd1 & Hrd1).
  destruct (normalize_Ok so2 qs records has_type no_clash)
    as (t2 & df2 & _ & Hn2 & Hc2 & Hrows2 & Hcd2 & Hrd2).
  unfold remaining_cols, leading_cols.
  set (U := map rename (union_keys records)) in *.
  exists df1, df2.
  split; [done|]. split; [done|].
  split; [by rewrite Hcd1, Hc1|]. split; [by rewrite Hcd2, Hc2|].
  split; [by rewrite !remaining_perm by done|].
  unfold start_of in Hrd1, Hrd2.
  rewrite Hrows1, Hc1, start_items in Hrd1.
  rewrite Hrows2, Hc2, start_items in Hrd2.
  set (ix := nargsort_desc qs _) in *.
  split; [by rewrite Hrd1, Hrd2, !length_fmap|].
  intros i c. rewrite Hcd1, Hcd2, Hc1, Hc2, Hrd1, Hrd2.
  change (map ?f ix) with (f <$> ix). rewrite !list_lookup_fmap.
  destruct (ix !! i) as [j|]; simpl.
  2:{ unfold cell_of, cell_at. by do 2 destruct (index_of _ _). }
  change (map ?f records) with (f <$> records). rewrite !list_lookup_fmap.
  destruct (records !! j) as [r|]; simpl.
  2:{ unfold cell_of, cell_at. by do 2 destruct (index_of _ _). }
  rewrite !table_row_cell.
  destruct (decide (c ∈ labels_of so1 records)) as [H1|H1];
    destruct (decide (c ∈ labels_of so2 records)) as [H2|H2]; try done.
  - by apply labels_same_elements in H1.
  - by apply labels_same_elements in H2.
Qed.

End TwoOrders.

Lemma normalize_inv so qs records df :
  normalize so qs records = Ok df ->
  "type" ∈ union_keys records /\ NoDup (map rename (union_keys records)).
Proof.
  unfold normalize. destruct (reshape so records) as [t|e] eqn:Hr; [|done].
  intros _. by eapply reshape_inv.
Qed.

(** An export with one record under a root with a locale. *)
Definition sample_export : string :=
"<HealthData locale='en_US'>
<Record type='HKQuantityTypeIdentifierStepCount' sourceName='Phone' value='10' startDate='2024-01-02' device='iPhone'/>
</HealthData>
".

Definition sample_doc : Extract.xml :=
  Extract.Node "HealthData" [("locale", "en_US")]
    [Extract.Node "Record"
       [("type", "HKQuantityTypeIdentifierStepCount"); ("sourceName", "Phone");
        ("value", "10"); ("startDate", "2024-01-02"); ("device", "iPhone")] []].

(** A parser that knows this one export. *)
Definition sample_parse (text : string) : option Extract.xml :=
  if String.eqb text sample_export then Some sample_doc else None.

Definition sample_files : files := {["export.xml" := sample_export]}.

Definition first_run : files * result unit :=
  main first_block_reader sample_parse forward_order stable_argsort "2024-06-01"
    sample_files.

Definition second_run : files * result unit :=
  main first_block_reader sample_parse backward_order stable_argsort "2024-06-01"
    (fst first_run).

(** C7, as stated, fails: the order in which the set of remaining labels
    is listed is not the program's to fix.  A second run on the same day
    that lists [device] and [locale] the other way round overwrites the
    full export with other bytes. *)
Lemma second_run_differs :
  snd first_run = Ok tt /\ snd second_run = Ok tt /\
  fst first_run !! "apple_health_export_2024-06-01.csv" =
  Some
"type,sourceName,value,unit,startDate,endDate,creationDate,device,locale
StepCount,Phone,10,,2024-01-02,,,iPhone,
,,,,,,,,en_US
" /\
  fst second_run !! "apple_health_export_2024-06-01.csv" =
  Some
"type,sourceName,value,unit,startDate,endDate,creationDate,locale,device
StepCount,Phone,10,,2024-01-02,,,,iPhone
,,,,,,,en_US,
".
Proof. repeat split; by vm_compute. Qed.

(** C7, amended.  A second run on the same day that lists the set of
    remaining labels in the same order as the first leaves every file,
    both outputs included, byte for byte as the first run left it.  A
    second run under any other order goes through as well, and the full
    table it writes has the same leading columns as the first run's (the
    fixed labels and the metadata labels that occur), the same remaining
    columns up to their order, the same number of rows and the same cell
    under every label in every row. *)
Theorem same_day_rerun reader parse qs today so fs fs1 :
  main reader parse so qs today fs = (fs1, Ok tt) ->
  main reader parse so qs today fs1 = (fs1, Ok tt) /\
  forall so',
    exists content doc df df' fs2,
      fs !! "export.xml" = Some content /\
      parse (Preprocess.preprocess_text content) = Some doc /\
      main reader parse so' qs today fs1 = (fs2, Ok tt) /\
      fs1 !! FULL_CSV today = Some (to_csv df) /\
      fs2 !! FULL_CSV today = Some (to_csv df') /\
      columns df =
        leading_cols (Extract.extract doc) ++
        remaining_cols so (Extract.extract doc) /\
      columns df' =
        leading_cols (Extract.extract doc) ++
        remaining_cols so' (Extract.extract doc) /\
      remaining_cols so (Extract.extract doc) ≡ₚ
        remaining_cols so' (Extract.extract doc) /\
      length (rows df) = length (rows df') /\
      (forall i c,
         cell_of (columns df) c (default [] (rows df !! i)) =
         cell_of (columns df') c (default [] (rows df' !! i))).
Proof.
  intros Hm. split; [by apply (main_again reader parse so qs today fs)|].
  intros so'.
  destruct (main_Ok_inv reader parse so qs today fs fs1 Hm)
    as (content & doc & df & bio & Hc & Hu & Hp & Hx & Hb & ->).
  unfold xml_to_csv in Hx.
  destruct (normalize_inv _ _ _ _ Hx) as [Ht Hnd].
  destruct (two_orders_tables so so' qs _ Ht Hnd)
    as (df1 & df2 & H1 & H2 & Hc1 & Hc2 & Hperm & Hl & Hcells).
  assert (df1 = df) as -> by congruence.
  pose proof (extract_biometrics_data_eq df2 (normalize_full_table _ _ _ _ H2))
    as Hb2.
  match type of Hb2 with _ = Ok ?b => set (bio2 := b) in Hb2 end.
  set (fs1 := files_after today fs _ (to_csv df) (to_csv bio)) in *.
  exists content, doc, df, df2,
    (files_after today fs1 (Preprocess.preprocess_text content)
       (to_csv df2) (to_csv bio2)).
  split; [done|]. split; [done|].
  split.
  { apply (main_Ok reader parse so' qs today fs1 content doc df2 bio2);
      try done. unfold fs1. by rewrite files_after_input. }
  split; [apply files_after_full|]. split; [apply files_after_full|].
  done.
Qed.

Lemma same_day_rerun_witness :
  main first_block_reader sample_parse forward_order stable_argsort "2024-06-01"
    (fst first_run) = (fst first_run, Ok tt) /\
  forall so',
    exists content doc df df' fs2,
      sample_files !! "export.xml" = Some content /\
      sample_parse (Preprocess.preprocess_text content) = Some doc /\
      main first_block_reader sample_parse so' stable_argsort "2024-06-01"
        (fst first_run) = (fs2, Ok tt) /\
      fst first_run !! FULL_CSV "2024-06-01" = Some (to_csv df) /\
      fs2 !! FULL_CSV "2024-06-01" = Some (to_csv df') /\
      columns df =
        leading_cols (Extract.extract doc) ++
        remaining_cols forward_order (Extract.extract doc) /\
      columns df' =
        leading_cols (Extract.extract doc) ++
        remaining_cols so' (Extract.extract doc) /\
      remaining_cols forward_order (Extract.extract doc) ≡ₚ
        remaining_cols so' (Extract.extract doc) /\
      length (rows df) = length (rows df') /\
      (forall i c,
         cell_of (columns df) c (default [] (rows df !! i)) =
         cell_of (columns df') c (default [] (rows df' !! i))).
Proof.
  apply (same_day_rerun first_block_reader sample_parse stable_argsort
           "2024-06-01" forward_order sample_files (fst first_run)).
  vm_compute. reflexivity.
Defined.

End RerunTheory.

(** ** More on the text preprocessor *)

Module PreprocessMore.
Import PyStr Preprocess PreprocessTheory.

Lemma strip_no_VT line : occurs VT (strip_invisible_character line) = false.
Proof.
  rewrite strip_is_filter. apply occurs_filter_chars.
  unfold not_VT. by rewrite Ascii.eqb_refl.
Qed.

Lemma step_outfile st line :
  outfile (step st line) = outfile st \/
  outfile (step st line) = outfile st ++ [strip_invisible_character line].
Proof.
  unfold step. simpl.
  destruct (if contains DOCTYPE line then true else skip_dtd st); auto.
Qed.

Lemma run_keeps (P : string -> Prop) st ls :
  (forall l, P (strip_invisible_character l)) ->
  Forall P (outfile st) -> Forall P (outfile (run st ls)).
Proof.
  intros HP. revert st. induction ls as [|l ls IH]; intros st Hst; [done|].
  rewrite run_cons. apply IH.
  destruct (step_outfile st l) as [-> | ->]; [done|].
  apply Forall_app. split; [done|]. by constructor.
Qed.

(** X1. No line of the temporary file holds the invisible character, whatever
    the input. *)
Theorem preprocessed_without_VT ls :
  Forall (fun l => occurs VT l = false) (preprocess_lines ls).
Proof.
  unfold preprocess_lines. apply run_keeps; [apply strip_no_VT|constructor].
Qed.

(** X2. The lines written are lines read, stripped, in the order read, none
    twice: the preprocessor drops lines but never adds or moves one. *)
Theorem preprocessed_sublist ls :
  preprocess_lines ls `sublist_of` map strip_invisible_character ls.
Proof.
  unfold preprocess_lines. generalize false as b.
  induction ls as [|l ls IH]; intros b; [done|].
  rewrite run_cons, run_outfile.
  destruct (step_outfile (State b []) l) as [-> | ->]; simpl.
  - apply sublist_cons, IH.
  - apply sublist_skip, IH.
Qed.

(** X3. A declaration that is never closed swallows the rest of the file: with
    a start marker and no end marker from that line on, nothing from that
    line to the end of the input is written. *)
Theorem unterminated_block_drops_rest pre d rest :
  Forall (fun l => contains DOCTYPE l = false) pre ->
  contains DOCTYPE d = true ->
  Forall (fun l => contains DTD_END l = false) (d :: rest) ->
  preprocess_lines (pre ++ d :: rest) = map strip_invisible_character pre.
Proof.
  intros Hpre Hd Hend. apply Forall_cons in Hend as [Hde Hrest].
  unfold preprocess_lines.
  rewrite run_app, run_emit by done.
  rewrite run_cons, step_drop by auto. rewrite Hde. simpl.
  by rewrite run_inside.
Qed.

Lemma unterminated_block_drops_rest_witness :
  preprocess_lines (["<?xml?>"] ++ "<!DOCTYPE HealthData [" ::
                    ["<HealthData>"; "<Record/>"; "</HealthData>"]) =
  map strip_invisible_character ["<?xml?>"].
Proof.
  apply (unterminated_block_drops_rest ["<?xml?>"] "<!DOCTYPE HealthData ["
           ["<HealthData>"; "<Record/>"; "</HealthData>"]).
  - repeat constructor.
  - reflexivity.
  - repeat constructor.
Defined.

(** *** Clean input *)

Lemma append_cons c a b :
  String.append (String c a) b = String c (String.append a b).
Proof. done. Qed.

Lemma append_nil_l b : String.append EmptyString b = b.
Proof. done. Qed.

Lemma append_nil_r s : String.append s EmptyString = s.
Proof.
  induction s as [|c s IH]; [done|]. by rewrite append_cons, IH.
Qed.

Lemma concat_cons x ls :
  String.concat EmptyString (x :: ls) =
  String.append x (String.concat EmptyString ls).
Proof. destruct ls; [by rewrite append_nil_r|done]. Qed.

(** The lines of a text without carriage returns, put together again,
    are the text. *)
Lemma readlines_concat s :
  occurs CR s = false -> String.concat EmptyString (readlines s) = s.
Proof.
  induction s as [|c s IH]; [done|]. cbn [readlines occurs].
  intros [Hc Hs]%orb_false_iff. specialize (IH Hs).
  destruct (Ascii.eqb c LF) eqn:E.
  - apply Ascii.eqb_eq in E as ->.
    by rewrite concat_cons, append_cons, append_nil_l, IH.
  - rewrite Ascii.eqb_sym, Hc.
    destruct (readlines s) as [|l ls] eqn:Hl.
    + simpl in *. by rewrite <- IH.
    + rewrite concat_cons in *. by rewrite append_cons, IH.
Qed.

Lemma startswith_append sub a b :
  startswith sub a = true -> startswith sub (String.append a b) = true.
Proof.
  revert a. induction sub as [|c sub IH]; intros [|d a]; try done.
  cbn [startswith]. intros [Hc H]%andb_true_iff.
  rewrite append_cons. cbn [startswith]. rewrite Hc. by apply IH.
Qed.

Lemma contains_append_l sub a b :
  contains sub a = true -> contains sub (String.append a b) = true.
Proof.
  induction a as [|d a IH].
  - cbn [contains]. rewrite orb_false_r. destruct sub; [|done].
    intros _. rewrite append_nil_l. by destruct b.
  - cbn [contains]. intros [H|H]%orb_true_iff.
    + rewrite append_cons. cbn [contains]. rewrite <- append_cons.
      by rewrite (startswith_append sub (String d a) b H).
    + rewrite append_cons. cbn [contains]. rewrite (IH H). apply orb_true_r.
Qed.

Lemma contains_append_r sub a b :
  contains sub b = true -> contains sub (String.append a b) = true.
Proof.
  intros H. induction a as [|d a IH]; [done|].
  rewrite append_cons. cbn [contains]. rewrite IH. apply orb_true_r.
Qed.

Lemma contains_concat sub l ls :
  l ∈ ls -> contains sub l = true ->
  contains sub (String.concat EmptyString ls) = true.
Proof.
  induction 1 as [l ls|l l' ls _ IH]; intros H; rewrite concat_cons.
  - by apply contains_append_l.
  - by apply contains_append_r, IH.
Qed.

Lemma occurs_append c a b :
  occurs c (String.append a b) = occurs c a || occurs c b.
Proof.
  induction a as [|d a IH]; [done|].
  rewrite append_cons. cbn [occurs]. by rewrite IH, orb_assoc.
Qed.

Lemma occurs_concat c l ls :
  l ∈ ls -> occurs c (String.concat EmptyString ls) = false ->
  occurs c l = false.
Proof.
  induction 1 as [l ls|l l' ls _ IH]; rewrite concat_cons, occurs_append;
    intros [H1 H2]%orb_false_iff; auto.
Qed.

Lemma filter_chars_id keep s :
  (forall c, keep c = false -> occurs c s = false) -> filter_chars keep s = s.
Proof.
  induction s as [|d s IH]; intros H; simpl; [done|].
  destruct (keep d) eqn:Hd.
  - f_equal. apply IH. intros c Hc. specialize (H c Hc). simpl in H.
    by apply orb_false_iff in H as [_ ?].
  - specialize (H d Hd). simpl in H. by rewrite Ascii.eqb_refl in H.
Qed.

Lemma strip_clean line :
  occurs VT line = false -> strip_invisible_character line = line.
Proof.
  intros H. rewrite strip_is_filter. apply filter_chars_id.
  intros c Hc. unfold not_VT in Hc. apply negb_false_iff, Ascii.eqb_eq in Hc.
  by subst.
Qed.

(** X4. A text that holds neither the start marker nor the invisible
    character is copied to the temporary file unchanged.  The text is to
    have no carriage return: reading in text mode hands a carriage return
    over as a line feed, and as that it would be written. *)
Theorem clean_text_unchanged content :
  contains DOCTYPE content = false ->
  occurs VT content = false ->
  occurs "013"%char content = false ->
  preprocess_text content = content.
Proof.
  intros Hd Hv Hr. unfold preprocess_text.
  pose proof (readlines_concat content Hr) as Hrc.
  rewrite <- Hrc in Hd, Hv.
  assert (preprocess_lines (readlines content) = readlines content) as ->;
    [|exact Hrc].
  assert (Forall (fun l => contains DOCTYPE l = false) (readlines content)) as H1.
  { apply Forall_forall. intros l Hl.
    destruct (contains DOCTYPE l) eqn:E; [|done].
    by rewrite (contains_concat _ _ _ Hl E) in Hd. }
  unfold preprocess_lines. rewrite run_emit by done. cbn [outfile app].
  apply list_eq. intros i.
  change (map ?f ?l) with (f <$> l). rewrite list_lookup_fmap.
  destruct (readlines content !! i) as [l|] eqn:Hl; simpl; [|done].
  f_equal. apply strip_clean. eapply occurs_concat; [|exact Hv].
  by eapply list_elem_of_lookup_2.
Qed.

Lemma clean_text_unchanged_witness :
  preprocess_text "<HealthData>
<Record type='StepCount'/>
</HealthData>
" = "<HealthData>
<Record type='StepCount'/>
</HealthData>
".
Proof. apply clean_text_unchanged; reflexivity. Defined.

End PreprocessMore.

(** ** More on string replacement *)

Module ReplaceTheory.
Import PyStr PreprocessMore.

Lemma startswith_refl s : startswith s s = true.
Proof. induction s as [|c s IH]; [done|]. simpl. by rewrite Ascii.eqb_refl. Qed.

(** A string without the pattern is left as it is. *)
Lemma replace_absent old new s :
  contains old s = false -> replace old new s = s.
Proof.
  unfold replace. induction s as [|c s IH]; cbn [contains replace_from].
  - rewrite orb_false_r. by destruct old.
  - intros [-> H]%orb_false_iff. by rewrite IH.
Qed.

Lemma replace_from_skip old new t s :
  replace_from old new (String.length t) (String.append t s) =
  replace_from old new 0 s.
Proof.
  induction t as [|c t IH]; [by destruct s|].
  rewrite append_cons. cbn [String.length replace_from]. exact IH.
Qed.

(** A leading occurrence of the pattern is replaced, and the search goes
    on behind it. *)
Lemma replace_prefix c old new s :
  replace (String c old) new (String.append (String c old) s) =
  String.append new (replace (String c old) new s).
Proof.
  unfold replace. rewrite append_cons. cbn [replace_from String.length].
  rewrite <- append_cons, (startswith_append _ _ s (startswith_refl _)).
  by rewrite replace_from_skip.
Qed.

End ReplaceTheory.

(** ** More on the normalised table *)

Module NormalizeMore.
Import PyStr Pandas Convert TableTheory SortTheory BiometricsTheory.
Import NormalizeTheory SortValuesTheory NormalizeClaims Instances.
Import PreprocessMore ReplaceTheory ExtractTheory RerunTheory.

(** *** How [xml_to_csv] ends *)

Lemma normalize_no_type so qs records :
  "type" ∉ union_keys records -> normalize so qs records = Raise AttributeError.
Proof. intros H. unfold normalize. by rewrite reshape_no_type. Qed.

Lemma normalize_duplicate so qs records :
  "type" ∈ union_keys records ->
  ~ NoDup (map rename (union_keys records)) ->
  normalize so qs records = Raise ValueError.
Proof. intros Ht Hn. unfold normalize. by rewrite reshape_duplicate. Qed.

Lemma keys_get k (d : dict) : k ∈ Dict.keys d <-> is_Some (Dict.get k d).
Proof.
  rewrite <- not_eq_None_Some, get_None_keys.
  destruct (decide (k ∈ Dict.keys d)); tauto.
Qed.

Lemma has_type_iff records :
  "type" ∈ union_keys records <->
  exists r, r ∈ records /\ is_Some (Dict.get "type" r).
Proof.
  rewrite elem_of_union_keys. by setoid_rewrite keys_get.
Qed.

(** X5. The conversion ends with an [AttributeError] exactly when no element
    of the document has a [type] attribute; a document of elements without
    attributes is one such. *)
Theorem no_type_attribute_error so qs doc :
  xml_to_csv so qs doc = Raise AttributeError <->
  forall x, x ∈ Extract.postorder doc ->
            Dict.get "type" (Extract.xml_attrs x) = None.
Proof.
  unfold xml_to_csv. rewrite extract_own_attributes.
  set (records := map Extract.xml_attrs (Extract.postorder doc)).
  assert ("type" ∉ union_keys records <->
          forall x, x ∈ Extract.postorder doc ->
                    Dict.get "type" (Extract.xml_attrs x) = None) as <-.
  { rewrite has_type_iff. split.
    - intros Hno x Hx. apply eq_None_not_Some. intros Hs. apply Hno.
      exists (Extract.xml_attrs x). split; [|done].
      by apply (list_elem_of_fmap_2 Extract.xml_attrs).
    - intros Hall (r & [x [-> Hx]]%list_elem_of_fmap & Hs).
      rewrite (Hall x Hx) in Hs. by destruct Hs. }
  split; [|apply normalize_no_type].
  intros Hn Ht.
  destruct (decide (NoDup (map rename (union_keys records)))) as [Hnd|Hnd].
  - destruct (normalize_Ok so qs records Ht Hnd) as (? & ? & _ & Hok & _).
    congruence.
  - rewrite normalize_duplicate in Hn by done. discriminate.
Qed.

(** A document whose elements have attributes, none of them [type]. *)
Definition untyped_doc : Extract.xml :=
  Extract.Node "HealthData" [("locale", "en_US")]
    [Extract.Node "ExportDate" [("value", "2024-06-01 10:00:00 -0700")] []].

Lemma no_type_attribute_error_witness :
  xml_to_csv forward_order stable_argsort untyped_doc = Raise AttributeError.
Proof.
  apply (proj2 (no_type_attribute_error forward_order stable_argsort untyped_doc)).
  apply Forall_forall. repeat constructor.
Defined.

(** Two keys that become one label. *)
Definition clash (records : list dict) (k1 k2 : string) : Prop :=
  k1 ∈ union_keys records /\ k2 ∈ union_keys records /\
  k1 <> k2 /\ rename k1 = rename k2.

Lemma not_NoDup_clash (f : string -> string) (l : list string) :
  NoDup l ->
  ~ NoDup (map f l) <-> exists x y, x ∈ l /\ y ∈ l /\ x <> y /\ f x = f y.
Proof.
  intros Hl. split.
  - intros Hn.
    destruct (decide (Exists (fun x => Exists (fun y => x <> y /\ f x = f y) l) l))
      as [He|He].
    + apply Exists_exists in He as (x & Hx & He).
      apply Exists_exists in He as (y & Hy & Hne & Hf). by exists x, y.
    + destruct Hn. apply (NoDup_fmap_2_strong f); [|done].
      intros x y Hx Hy Hf. destruct (decide (x = y)) as [|Hne]; [done|].
      destruct He. apply Exists_exists. exists x. split; [done|].
      apply Exists_exists. by exists y.
  - intros (x & y & Hx & Hy & Hne & Hf) Hn.
    apply list_elem_of_lookup in Hx as [i Hi].
    apply list_elem_of_lookup in Hy as [j Hj].
    assert (i = j) as ->.
    { apply (NoDup_lookup _ _ _ (f x) Hn).
      - change ((f <$> l) !! i = Some (f x)). by rewrite list_lookup_fmap, Hi.
      - change ((f <$> l) !! j = Some (f x)).
        by rewrite list_lookup_fmap, Hj, Hf. }
    congruence.
Qed.

(** X6. The conversion ends with a [ValueError] exactly when some record has
    [type] and two different keys of the records are the same once the
    characteristic prefix is removed. *)
Theorem label_clash_error so qs records :
  normalize so qs records = Raise ValueError <->
  "type" ∈ union_keys records /\ exists k1 k2, clash records k1 k2.
Proof.
  unfold clash.
  rewrite <- (not_NoDup_clash rename _ (NoDup_union_keys records)).
  split.
  - intros Hn.
    destruct (decide ("type" ∈ union_keys records)) as [Ht|Ht].
    2:{ rewrite normalize_no_type in Hn by done. discriminate. }
    split; [done|]. intros Hnd.
    destruct (normalize_Ok so qs records Ht Hnd) as (? & ? & _ & Hok & _).
    congruence.
  - intros [Ht Hnd]. by apply normalize_duplicate.
Qed.

(** A record with a key and the same key under the characteristic
    prefix. *)
Definition clashing_records : list dict :=
  [[("type", "HKQuantityTypeIdentifierHeartRate"); ("BloodType", "O+");
    ("HKCharacteristicTypeIdentifierBloodType", "HKBloodTypeOPositive")]].

Lemma label_clash_error_witness :
  normalize forward_order stable_argsort clashing_records = Raise ValueError.
Proof.
  apply (proj2 (label_clash_error forward_order stable_argsort clashing_records)).
  split; [apply (bool_decide_unpack _); by vm_compute|].
  exists "BloodType", "HKCharacteristicTypeIdentifierBloodType".
  unfold clash. repeat split.
  - apply (bool_decide_unpack _). by vm_compute.
  - apply (bool_decide_unpack _). by vm_compute.
  - discriminate.
Defined.

(** *** The rows *)

(** X7. The table has one row for every element of the document, the root and
    the metadata entries included. *)
Theorem one_row_per_element so qs doc df :
  xml_to_csv so qs doc = Ok df ->
  length (rows df) = length (Extract.postorder doc).
Proof.
  unfold xml_to_csv. intros Hx.
  destruct (normalize_inv _ _ _ _ Hx) as [Ht Hnd].
  destruct (normalize_Ok so qs _ Ht Hnd)
    as (t & df' & _ & Hn & _ & Hrows & _ & Hrd).
  assert (df' = df) as -> by congruence.
  rewrite Hrd, length_fmap.
  rewrite (Permutation_length (nargsort_desc_perm qs _)).
  rewrite length_seq, length_fmap, Hrows, length_fmap.
  by rewrite extract_own_attributes, length_fmap.
Qed.

Lemma one_row_per_element_witness :
  exists df,
    xml_to_csv forward_order stable_argsort sample_doc = Ok df /\
    length (rows df) = length (Extract.postorder sample_doc).
Proof.
  eexists. split; [vm_compute; reflexivity|].
  apply (one_row_per_element forward_order stable_argsort sample_doc).
  vm_compute. reflexivity.
Defined.

(** *** The [type] column *)

Lemma quantity_not_in_category name :
  contains QUANTITY_PREFIX (String.append CATEGORY_PREFIX name) =
  contains QUANTITY_PREFIX name.
Proof.
  unfold CATEGORY_PREFIX, QUANTITY_PREFIX.
  rewrite !append_cons, append_nil_l. reflexivity.
Qed.

Lemma strip_type_cases name :
  contains QUANTITY_PREFIX name = false ->
  contains CATEGORY_PREFIX name = false ->
  strip_type name = name /\
  strip_type (String.append QUANTITY_PREFIX name) = name /\
  strip_type (String.append CATEGORY_PREFIX name) = name.
Proof.
  intros Hq Hc. unfold strip_type. repeat split.
  - rewrite (replace_absent QUANTITY_PREFIX) by done.
    by rewrite (replace_absent CATEGORY_PREFIX).
  - unfold QUANTITY_PREFIX at 1 2. rewrite replace_prefix, append_nil_l.
    fold QUANTITY_PREFIX.
    rewrite (replace_absent QUANTITY_PREFIX) by done.
    by rewrite (replace_absent CATEGORY_PREFIX).
  - rewrite (replace_absent QUANTITY_PREFIX)
      by (by rewrite quantity_not_in_category).
    unfold CATEGORY_PREFIX at 1 2. rewrite replace_prefix, append_nil_l.
    fold CATEGORY_PREFIX. by rewrite (replace_absent CATEGORY_PREFIX).
Qed.

(** X8. A record whose [type] is a name with the quantity or the category
    prefix in front, or the bare name, has a row whose [type] cell is the
    bare name (the name holding neither prefix) and whose other cells are
    the record's values. *)
Theorem type_prefix_removed so qs records df r name :
  normalize so qs records = Ok df ->
  r ∈ records ->
  Dict.get "type" r = Some name \/
  Dict.get "type" r = Some (String.append QUANTITY_PREFIX name) \/
  Dict.get "type" r = Some (String.append CATEGORY_PREFIX name) ->
  contains QUANTITY_PREFIX name = false ->
  contains CATEGORY_PREFIX name = false ->
  exists row,
    row ∈ rows df /\
    cell_of (columns df) "type" row = Some name /\
    forall k, k ∈ union_keys records -> k <> "type" ->
              cell_of (columns df) (rename k) row = Dict.get k r.
Proof.
  intros Hn Hr Hty Hq Hc.
  destruct (normalize_inv _ _ _ _ Hn) as [Ht Hnd].
  destruct (normalize_Ok so qs _ Ht Hnd)
    as (t & df' & _ & Hn' & Hcols & Hrows & Hcd & Hrd).
  assert (df' = df) as -> by congruence.
  exists (table_row (union_keys records) (labels_of so records) r).
  destruct (table_row_cells so records r Hnd) as [Hcell _].
  rewrite Hcd, Hcols. split; [|split].
  - rewrite Hrd. unfold start_of.
    rewrite (sorted_rows_perm qs "startDate" t), Hrows.
    by apply (list_elem_of_fmap_2 (table_row _ _)).
  - change "type" with (rename "type") at 1. rewrite Hcell by done.
    unfold field. simpl.
    destruct (strip_type_cases name Hq Hc) as (H1 & H2 & H3).
    destruct Hty as [-> | [-> | ->]]; simpl; by f_equal.
  - intros k Hk Hne. rewrite Hcell by done. unfold field.
    by destruct (String.eqb_spec k "type").
Qed.

(** What the normalisation makes of [undated_records]. *)
Definition undated_table : DataFrame :=
  mkDataFrame
    ["type"; "sourceName"; "value"; "unit"; "startDate"; "endDate";
     "creationDate"]
    [[Some "StepCount"; None; Some "10"; None; None; None; None];
     [Some "StepCount"; None; Some "5"; None; None; None; None]].

Lemma type_prefix_removed_witness :
  exists row,
    row ∈ rows undated_table /\
    cell_of (columns undated_table) "type" row = Some "StepCount" /\
    forall k, k ∈ union_keys undated_records -> k <> "type" ->
              cell_of (columns undated_table) (rename k) row =
              Dict.get k [("type", "HKQuantityTypeIdentifierStepCount");
                          ("value", "10")].
Proof.
  apply (type_prefix_removed forward_order stable_argsort undated_records
           undated_table
           [("type", "HKQuantityTypeIdentifierStepCount"); ("value", "10")]
           "StepCount").
  - reflexivity.
  - apply (bool_decide_unpack _). by vm_compute.
  - right. left. reflexivity.
  - reflexivity.
  - reflexivity.
Defined.

(** *** When the order of the rows is settled *)

Section NoTies.
Context (qs1 qs2 : ArgSort) (t : DataFrame).
Hypothesis start_present : "startDate" ∈ columns t.
Hypothesis no_ties :
  forall r1 r2, r1 ∈ rows t -> r2 ∈ rows t ->
    is_Some (start_of t r1) -> start_of t r1 = start_of t r2 -> r1 = r2.

Let dates := map (start_of t) (rows t).
Let nth_row (i : nat) : list cell := default [] (rows t !! i).

Lemma present_row i :
  is_Some (cell_at dates i) ->
  nth_row i ∈ rows t /\ start_of t (nth_row i) = cell_at dates i.
Proof.
  unfold cell_at, dates, nth_row.
  change (map ?f ?l) with (f <$> l). rewrite list_lookup_fmap.
  destruct (rows t !! i) as [r|] eqn:Hr; simpl; [|by intros [? ?]].
  intros _. split; [by eapply list_elem_of_lookup_2|done].
Qed.

Lemma sorted_rows_unique :
  map nth_row (nargsort_desc qs1 dates) = map nth_row (nargsort_desc qs2 dates).
Proof.
  pose proof (sorted_rows_descending qs1 "startDate" t) as Hs1.
  pose proof (sorted_rows_descending qs2 "startDate" t) as Hs2.
  pose proof (nargsort_desc_perm qs1 dates) as Hp1.
  pose proof (nargsort_desc_perm qs2 dates) as Hp2.
  fold (start_of t) in Hs1, Hs2. fold dates nth_row in Hs1, Hs2.
  destruct (nargsort_desc_split qs1 dates) as (P1 & E1 & F1).
  destruct (nargsort_desc_split qs2 dates) as (P2 & E2 & F2).
  rewrite E1, E2 in *. rewrite !map_app in *.
  f_equal.
  apply StronglySorted_app_1_l in Hs1, Hs2.
  eapply StronglySorted_unique_strong; [|exact Hs1|exact Hs2|].
  - intros x1 x2 [i1 [-> H1]]%list_elem_of_fmap [i2 [-> H2]]%list_elem_of_fmap.
    rewrite Forall_forall in F1, F2.
    destruct (present_row i1 (F1 _ H1)) as [Hin1 Hk1].
    destruct (present_row i2 (F2 _ H2)) as [Hin2 Hk2].
    intros Hle Hge. apply no_ties; try done.
    + rewrite Hk1. by apply F1.
    + by apply (cell_leb_antisym false).
  - change (map nth_row P1) with (nth_row <$> P1).
    change (map nth_row P2) with (nth_row <$> P2).
    apply fmap_Permutation.
    apply (Permutation_app_inv_r
             (filter (fun i => cell_at dates i = None) (seq 0 (length dates)))).
    by rewrite Hp1, Hp2.
Qed.

End NoTies.

(** X9. When no two different rows have the same [startDate], the order of the
    rows does not depend on the sort algorithm: every sort returns the
    same table. *)
Theorem order_settled_without_ties so qs1 qs2 records t :
  reshape so records = Ok t ->
  (forall r1 r2, r1 ∈ rows t -> r2 ∈ rows t ->
     is_Some (start_of t r1) -> start_of t r1 = start_of t r2 -> r1 = r2) ->
  normalize so qs1 records = normalize so qs2 records.
Proof.
  intros Hr Hties. unfold normalize. rewrite Hr. simpl.
  destruct (reshape_inv _ _ _ Hr) as [Ht Hnd].
  assert ("startDate" ∈ columns t) as Hs.
  { rewrite reshape_Ok in Hr by done. injection Hr as <-. simpl.
    apply priority_in_labels, startDate_priority. }
  rewrite !sort_values_desc_eq by done. do 2 f_equal.
  by apply sorted_rows_unique.
Qed.

(** Records with a different [startDate] each, and one without. *)
Definition dated_records : list dict :=
  [[("type", "StepCount"); ("value", "1"); ("startDate", "2024-01-01")];
   [("type", "StepCount"); ("value", "2"); ("startDate", "2024-01-03")];
   [("type", "StepCount"); ("value", "3")];
   [("type", "StepCount"); ("value", "4"); ("startDate", "2024-01-02")]].

Definition dated_table : DataFrame :=
  mkDataFrame priority_cols
    (map (table_row (union_keys dated_records) priority_cols) dated_records).

Lemma order_settled_without_ties_witness :
  normalize forward_order stable_argsort dated_records =
  normalize forward_order numpy_argsort dated_records.
Proof.
  apply (order_settled_without_ties forward_order stable_argsort
           numpy_argsort dated_records dated_table).
  - reflexivity.
  - remember (rows dated_table) as l eqn:E. vm_compute in E. subst l.
    intros r1 r2 H1 H2.
    repeat (apply elem_of_cons in H1 as [->|H1]);
      try (by apply elem_of_nil in H1);
      repeat (apply elem_of_cons in H2 as [->|H2]);
      try (by apply elem_of_nil in H2);
      vm_compute; intros Hs He; try done; try (by destruct Hs); congruence.
Defined.

End NormalizeMore.

(** ** More on the biometrics filter *)

Module BiometricsMore.
Import PyStr Pandas Convert TableTheory SortTheory BiometricsTheory.

Definition has_filter_labels (df : DataFrame) : Prop :=
  "type" ∈ columns df /\ "sourceName" ∈ columns df /\
  "creationDate" ∈ columns df.

Lemma biometrics_Ok df :
  has_filter_labels df ->
  extract_biometrics_data df =
  Ok (mkDataFrame (columns df) (stable_sort (bio_leb df) (kept_rows df))).
Proof.
  intros (Ht & Hs & Hc). unfold extract_biometrics_data.
  rewrite (column_Ok df "sourceName") by done. simpl.
  rewrite (column_Ok df "type") by done. simpl.
  rewrite sort_values_bio by done. simpl.
  rewrite select_eq_scalar, select_isin.
  do 2 f_equal.
  change (bio_leb (select_rows _ df)) with (bio_leb df). f_equal.
  apply list_filter_iff. intros r. apply elem_of_unique.
Qed.

Lemma column_Raise df c : c ∉ columns df -> column df c = Raise KeyError.
Proof. intros H. unfold column. by rewrite index_of_None. Qed.

(** X10. On a table with distinct labels the filter raises [KeyError] exactly
    when one of the labels [sourceName], [type] and [creationDate] is not
    there; with all three it returns a table. *)
Theorem biometrics_key_error df :
  NoDup (columns df) ->
  (extract_biometrics_data df = Raise KeyError <-> ~ has_filter_labels df).
Proof.
  intros _. split.
  - intros Hr Hl. rewrite biometrics_Ok in Hr by done. discriminate.
  - intros Hno. unfold extract_biometrics_data.
    destruct (decide ("sourceName" ∈ columns df)) as [Hs|Hs].
    2:{ rewrite (column_Raise df "sourceName") by done. reflexivity. }
    rewrite (column_Ok df "sourceName") by done. simpl.
    destruct (decide ("type" ∈ columns df)) as [Ht|Ht].
    2:{ rewrite (column_Raise df "type") by done. reflexivity. }
    rewrite (column_Ok df "type") by done. simpl.
    destruct (decide ("creationDate" ∈ columns df)) as [Hc|Hc].
    { by destruct Hno. }
    unfold sort_values_multi. simpl.
    destruct (index_of_Some _ _ Ht) as [i ->].
    by rewrite (index_of_None "creationDate").
Qed.

(** A table with no [creationDate] column. *)
Definition undated_measurements : DataFrame :=
  mkDataFrame ["type"; "sourceName"; "value"]
    [[Some "Weight"; Some "RENPHO Health"; Some "70"]].

Lemma biometrics_key_error_witness :
  extract_biometrics_data undated_measurements = Raise KeyError.
Proof.
  apply (biometrics_key_error undated_measurements).
  - apply (bool_decide_unpack _). by vm_compute.
  - intros (_ & _ & H). revert H. apply (bool_decide_unpack _). by vm_compute.
Defined.

Lemma renpho_row_kept df r :
  r ∈ rows df -> source_of df r = Some RENPHO -> r ∈ kept_rows df.
Proof.
  intros Hr Hs. unfold kept_rows. apply list_elem_of_filter. split; [|done].
  unfold renpho_types. apply (list_elem_of_fmap_2 (type_of df)).
  by apply list_elem_of_filter.
Qed.

(** X11. Every row whose source is "RENPHO Health" is a row of the biometrics
    table. *)
Theorem scale_rows_kept df out r :
  full_table df ->
  extract_biometrics_data df = Ok out ->
  r ∈ rows df -> source_of df r = Some RENPHO -> r ∈ rows out.
Proof.
  intros [_ Hl] Ho Hr Hs. rewrite biometrics_Ok in Ho by done.
  injection Ho as <-. simpl. rewrite stable_sort_perm.
  by apply renpho_row_kept.
Qed.

Lemma scale_rows_kept_witness :
  exists out,
    extract_biometrics_data sample_table = Ok out /\
    [Some "Weight"; Some "RENPHO Health"; Some "71"; Some "2024-01-02"]
      ∈ rows out.
Proof.
  eexists. split; [reflexivity|].
  apply (scale_rows_kept sample_table _ _ sample_table_full).
  - reflexivity.
  - apply (bool_decide_unpack _). by vm_compute.
  - reflexivity.
Defined.

Lemma bio_leb_total df x y : bio_leb df x y = false -> bio_leb df y x = true.
Proof.
  unfold bio_leb. simpl.
  destruct (decide (type_of df x = type_of df y)) as [Et|Et].
  - rewrite (bool_decide_eq_true_2 _ Et).
    rewrite (bool_decide_eq_true_2 (type_of df y = type_of df x)) by done.
    destruct (decide (creation_of df x = creation_of df y)) as [Ec|Ec].
    + by rewrite (bool_decide_eq_true_2 _ Ec).
    + rewrite (bool_decide_eq_false_2 _ Ec).
      rewrite (bool_decide_eq_false_2 (creation_of df y = creation_of df x))
        by congruence.
      apply cell_leb_total.
  - rewrite (bool_decide_eq_false_2 _ Et).
    rewrite (bool_decide_eq_false_2 (type_of df y = type_of df x))
      by congruence.
    apply cell_leb_total.
Qed.

Lemma stable_sort_sorted {A} (leb : A -> A -> bool) (l : list A) :
  Sorted (fun x y => leb x y = true) l -> stable_sort leb l = l.
Proof.
  induction 1 as [|x l Hl IH Hhd]; [done|].
  simpl. rewrite IH. destruct Hhd as [|y l Hxy]; simpl; [done|].
  by rewrite Hxy.
Qed.

(** X12. Filtering the biometrics table again changes nothing. *)
Theorem biometrics_twice df out :
  full_table df ->
  extract_biometrics_data df = Ok out ->
  extract_biometrics_data out = Ok out.
Proof.
  intros [_ Hl] Ho. pose proof Ho as Ho'.
  rewrite biometrics_Ok in Ho by done. injection Ho as <-.
  set (S := stable_sort (bio_leb df) (kept_rows df)).
  rewrite biometrics_Ok by done. simpl. f_equal. f_equal.
  change (bio_leb (mkDataFrame (columns df) S)) with (bio_leb df).
  assert (kept_rows (mkDataFrame (columns df) S) = S) as ->.
  { unfold kept_rows at 1. simpl. apply filter_all. intros r Hr.
    unfold S in Hr. rewrite stable_sort_perm in Hr.
    pose proof Hr as [Hty _]%list_elem_of_filter.
    unfold renpho_types in Hty.
    apply list_elem_of_fmap in Hty as (r' & Hty & [Hs' Hr']%list_elem_of_filter).
    unfold renpho_types. simpl.
    change (type_of (mkDataFrame (columns df) S)) with (type_of df).
    change (source_of (mkDataFrame (columns df) S)) with (source_of df).
    rewrite Hty. apply (list_elem_of_fmap_2 (type_of df)).
    apply list_elem_of_filter. split; [done|].
    unfold S. rewrite stable_sort_perm. by apply renpho_row_kept. }
  apply stable_sort_sorted.
  apply (Sorted_stable_sort (fun x y => bio_leb df x y = true) (bio_leb df));
    [done|apply bio_leb_total].
Qed.

Lemma biometrics_twice_witness :
  exists out,
    extract_biometrics_data sample_table = Ok out /\
    extract_biometrics_data out = Ok out.
Proof.
  eexists. split; [reflexivity|].
  apply (biometrics_twice sample_table _ sample_table_full). reflexivity.
Defined.

End BiometricsMore.

(** ** The files a run leaves behind *)

Module MainTheory.
Import PyStr Pandas Convert TableTheory SortTheory BiometricsTheory.
Import NormalizeTheory SortValuesTheory NormalizeClaims Instances.
Import ExtractTheory RerunTheory NormalizeMore BiometricsMore.

Section Run.
Context (reader : TextReader) (parse : string -> option Extract.xml)
        (so : SetOrder) (qs : ArgSort) (today : string).

(** The table of the whole export always passes the biometrics filter. *)
Lemma biometrics_of_full_table records df :
  normalize so qs records = Ok df ->
  exists bio, extract_biometrics_data df = Ok bio.
Proof.
  intros Hn. eexists. apply extract_biometrics_data_eq.
  by eapply normalize_full_table.
Qed.



(** X14. What a run that goes through leaves: no temporary file, even if
    one was there before; the input as it was; the two tables in their
    files; every other file untouched. *)
Theorem finished_run fs fs1 :
  main reader parse so qs today fs = (fs1, Ok tt) ->
  fs1 !! TEMP_FILE = None /\
  fs1 !! "export.xml" = fs !! "export.xml" /\
  (exists content doc df bio,
     fs !! "export.xml" = Some content /\
     utf8_valid content = true /\
     parse (Preprocess.preprocess_text content) = Some doc /\
     xml_to_csv so qs doc = Ok df /\
     extract_biometrics_data df = Ok bio /\
     fs1 !! FULL_CSV today = Some (to_csv df) /\
     fs1 !! BIO_CSV today = Some (to_csv bio)) /\
  (forall name,
     name <> TEMP_FILE -> name <> FULL_CSV today -> name <> BIO_CSV today ->
     fs1 !! name = fs !! name).
Proof.
  intros (content & doc & df & bio & Hc & Hu & Hp & Hx & Hb & ->)%main_Ok_inv.
  destruct (names_distinct today) as (N1 & N2 & N3 & N4 & N5 & N6).
  unfold files_after. split; [apply lookup_delete_eq|].
  split.
  { rewrite lookup_delete_ne by done. by rewrite !lookup_insert_ne by done. }
  split.
  { exists content, doc, df, bio. repeat (split; [done|]). split.
    - rewrite lookup_delete_ne by done.
      rewrite lookup_insert_ne by done. apply lookup_insert_eq.
    - rewrite lookup_delete_ne by done. apply lookup_insert_eq. }
  intros name H1 H2 H3.
  rewrite lookup_delete_ne by done. by rewrite !lookup_insert_ne by done.
Qed.

(** X15. A run goes through exactly when the input file is there and is
    well-formed UTF-8, its preprocessed text parses, some element has a
    [type] attribute and no two attribute names become the same label. *)
Theorem run_goes_through fs :
  (exists fs1, main reader parse so qs today fs = (fs1, Ok tt)) <->
  exists content doc,
    fs !! "export.xml" = Some content /\
    utf8_valid content = true /\
    parse (Preprocess.preprocess_text content) = Some doc /\
    (exists x, x ∈ Extract.postorder doc /\
               is_Some (Dict.get "type" (Extract.xml_attrs x))) /\
    NoDup (map rename
             (union_keys (map Extract.xml_attrs (Extract.postorder doc)))).
Proof.
  split.
  - intros [fs1 (content & doc & df & bio & Hc & Hu & Hp & Hx & Hb & _)%main_Ok_inv].
    exists content, doc. split; [done|]. split; [done|]. split; [done|].
    unfold xml_to_csv in Hx. rewrite extract_own_attributes in Hx.
    destruct (normalize_inv _ _ _ _ Hx) as [Ht Hnd]. split; [|done].
    apply has_type_iff in Ht as (r & [x [-> Hx']]%list_elem_of_fmap & Hs).
    by exists x.
  - intros (content & doc & Hc & Hu & Hp & (x & Hx & Hs) & Hnd).
    assert ("type" ∈ union_keys (map Extract.xml_attrs (Extract.postorder doc)))
      as Ht.
    { apply has_type_iff. exists (Extract.xml_attrs x). split; [|done].
      by apply (list_elem_of_fmap_2 Extract.xml_attrs). }
    destruct (normalize_Ok so qs _ Ht Hnd) as (t & df & _ & Hn & _).
    destruct (biometrics_of_full_table _ _ Hn) as [bio Hb].
    eexists.
    apply (main_Ok reader parse so qs today fs content doc df bio); try done.
    unfold xml_to_csv. by rewrite extract_own_attributes.
Qed.

End Run.



Lemma finished_run_witness :
  fst first_run !! TEMP_FILE = None /\
  fst first_run !! "export.xml" = sample_files !! "export.xml" /\
  (exists content doc df bio,
     sample_files !! "export.xml" = Some content /\
     utf8_valid content = true /\
     sample_parse (Preprocess.preprocess_text content) = Some doc /\
     xml_to_csv forward_order stable_argsort doc = Ok df /\
     extract_biometrics_data df = Ok bio /\
     fst first_run !! FULL_CSV "2024-06-01" = Some (to_csv df) /\
     fst first_run !! BIO_CSV "2024-06-01" = Some (to_csv bio)) /\
  (forall name,
     name <> TEMP_FILE -> name <> FULL_CSV "2024-06-01" ->
     name <> BIO_CSV "2024-06-01" ->
     fst first_run !! name = sample_files !! name).
Proof.
  apply (finished_run first_block_reader sample_parse forward_order
           stable_argsort "2024-06-01" sample_files (fst first_run)).
  vm_compute. reflexivity.
Defined.

Lemma run_goes_through_witness :
  exists fs1,
    main first_block_reader sample_parse forward_order stable_argsort
      "2024-06-01" sample_files = (fs1, Ok tt).
Proof.
  apply (proj2 (run_goes_through first_block_reader sample_parse forward_order
                  stable_argsort "2024-06-01" sample_files)).
  exists sample_export, sample_doc.
  split; [reflexivity|]. split; [reflexivity|]. split; [reflexivity|]. split.
  - exists (Extract.Node "Record"
       [("type", "HKQuantityTypeIdentifierStepCount"); ("sourceName", "Phone");
        ("value", "10"); ("startDate", "2024-01-02"); ("device", "iPhone")] []).
    split; [apply (list_elem_of_here)|by eexists].
  - apply (bool_decide_unpack _). by vm_compute.
Defined.

End MainTheory.
